(** * toukon_lambda: the Python Lambda handler, embedded and verified

    Source: [python-lambda/lambda_function.py].

    The handler [lambda_handler(event, context)] logs, reads two optional
    keys of the event, builds a payload, serialises it with [json.dumps]
    and returns an API-Gateway envelope; any exception of the [try] body
    is turned into a 500 envelope by the [except Exception] block.

    Python values are modelled as immutable trees ([pyval]); [str] is a
    sequence of Unicode code points.  Floating point numbers, cyclic
    containers and classes with methods or properties are outside the
    value model.  The parts of the Python library the handler calls
    ([json.dumps], [dict.get], [getattr], [datetime.isoformat], the
    logger) are modelled after CPython's behaviour; [json.loads] is
    modelled to state the serialise/parse properties of the body.

    Two limits of the interpreter are not in the model of [json.dumps]:
    the number of digits of an [int] it converts to text, and the depth
    of nesting its recursion limit allows.  Beyond them [json.dumps]
    raises [ValueError] or [RecursionError], which the [except] block
    catches as it does any exception.  The properties that say which
    outcome an event has, or that two invocations have the same
    outcome, carry the hypothesis [within_limits], which keeps the
    event and the request id below both limits.

    The host is a parameter: the interpreter version, the clock (an
    oracle of readings) and the configured log handlers, which may raise.
    An invocation threads a [world]: the log written so far and the
    number of clock readings taken.  The [__main__] block is [main], run
    on a [process]: a world and the text written to standard output,
    whose writes are a parameter too and may raise. *)

From Stdlib.Strings Require Import String Ascii Byte.
From Stdlib Require Import List ZArith NArith Lia Bool.
From Stdlib Require Import DecimalN DecimalZ DecimalPos.
Import ListNotations.

Local Open Scope N_scope.

(** ** Python [str]: sequences of code points *)

Abbreviation codepoint := N (only parsing).
Abbreviation pystr := (list N) (only parsing).

(** Decoding of the UTF-8 bytes of a literal written in this file, so that
    the literals of the source can be written as they are. *)
Fixpoint utf8_go (need : nat) (acc : N) (bs : list N) : pystr :=
  match bs with
  | [] => []
  | b :: r =>
      match need with
      | O =>
          if b <? 128 then b :: utf8_go 0 0 r
          else if b <? 224 then utf8_go 1 (b - 192) r
          else if b <? 240 then utf8_go 2 (b - 224) r
          else utf8_go 3 (b - 240) r
      | S O => (acc * 64 + (b - 128)) :: utf8_go 0 0 r
      | S n => utf8_go n (acc * 64 + (b - 128)) r
      end
  end.

Definition u (s : string) : pystr :=
  utf8_go 0 0 (map Byte.to_N (list_byte_of_string s)).

Fixpoint pystr_eqb (a b : pystr) : bool :=
  match a, b with
  | [], [] => true
  | x :: a', y :: b' => (x =? y) && pystr_eqb a' b'
  | _, _ => false
  end.

(** [needle in hay] on [str]. *)
Fixpoint starts_with (p s : pystr) : bool :=
  match p, s with
  | [], _ => true
  | x :: p', y :: s' => (x =? y) && starts_with p' s'
  | _ :: _, [] => false
  end.

Fixpoint str_contains (needle hay : pystr) : bool :=
  starts_with needle hay ||
  match hay with
  | [] => false
  | _ :: hay' => str_contains needle hay'
  end.

(** Decimal digits, as [int.__repr__] and [%d] print them. *)
Fixpoint uint_chars (d : Decimal.uint) : pystr :=
  match d with
  | Decimal.Nil => []
  | Decimal.D0 r => 48 :: uint_chars r
  | Decimal.D1 r => 49 :: uint_chars r
  | Decimal.D2 r => 50 :: uint_chars r
  | Decimal.D3 r => 51 :: uint_chars r
  | Decimal.D4 r => 52 :: uint_chars r
  | Decimal.D5 r => 53 :: uint_chars r
  | Decimal.D6 r => 54 :: uint_chars r
  | Decimal.D7 r => 55 :: uint_chars r
  | Decimal.D8 r => 56 :: uint_chars r
  | Decimal.D9 r => 57 :: uint_chars r
  end.

Definition nat_repr (n : N) : pystr := uint_chars (N.to_uint n).

(** [repr] of an [int], for every integer: the interpreter's limit on
    the number of digits it converts is left to [int_within]. *)
Definition int_repr (z : Z) : pystr :=
  match z with
  | Zneg p => 45 :: nat_repr (Npos p)
  | _ => nat_repr (Z.to_N z)
  end.

(** [%0wd]: zero padding up to width [w], never truncating. *)
Definition pad (w : nat) (n : N) : pystr :=
  let ds := nat_repr n in
  repeat 48 (w - length ds) ++ ds.

(** ** Python values *)

(** Dictionary keys: the hashable values of the model. *)
Inductive pykey : Type :=
| KNone
| KBool (b : bool)
| KInt (z : Z)
| KStr (s : pystr)
| KBytes (b : list N).

Unset Elimination Schemes.
Inductive pyval : Type :=
| PNone
| PBool (b : bool)
| PInt (z : Z)
| PStr (s : pystr)
| PBytes (b : list N)
| PList (xs : list pyval)
| PTuple (xs : list pyval)
| PDict (kvs : list (pykey * pyval))
| PObj (cls : pystr) (attrs : list (pystr * pyval)).
Set Elimination Schemes.

(** [type(o).__name__] *)
Definition type_name (o : pyval) : pystr :=
  match o with
  | PNone => u "NoneType"
  | PBool _ => u "bool"
  | PInt _ => u "int"
  | PStr _ => u "str"
  | PBytes _ => u "bytes"
  | PList _ => u "list"
  | PTuple _ => u "tuple"
  | PDict _ => u "dict"
  | PObj cls _ => cls
  end.

Definition key_type_name (k : pykey) : pystr :=
  match k with
  | KNone => u "NoneType"
  | KBool _ => u "bool"
  | KInt _ => u "int"
  | KStr _ => u "str"
  | KBytes _ => u "bytes"
  end.

(** Truth value of an object, as [if context] tests it.  Instances of the
    model's plain classes define neither [__bool__] nor [__len__]. *)
Definition py_truthy (o : pyval) : bool :=
  match o with
  | PNone => false
  | PBool b => b
  | PInt z => negb (z =? 0)%Z
  | PStr s => negb (length s =? 0)%nat
  | PBytes b => negb (length b =? 0)%nat
  | PList xs => negb (length xs =? 0)%nat
  | PTuple xs => negb (length xs =? 0)%nat
  | PDict kvs => negb (length kvs =? 0)%nat
  | PObj _ _ => true
  end.

(** Equality of keys as [dict] sees it ([==] with equal hashes): [True]
    and [1] are the same key, a [str] never equals a [bytes]. *)
Definition key_num (k : pykey) : option Z :=
  match k with
  | KBool b => Some (if b then 1 else 0)%Z
  | KInt z => Some z
  | _ => None
  end.

Definition key_eqb (k1 k2 : pykey) : bool :=
  match k1, k2 with
  | KNone, KNone => true
  | KStr a, KStr b => pystr_eqb a b
  | KBytes a, KBytes b => pystr_eqb a b
  | _, _ =>
      match key_num k1, key_num k2 with
      | Some a, Some b => (a =? b)%Z
      | _, _ => false
      end
  end.

Definition dict_items := list (pykey * pyval).

Fixpoint dict_lookup (k : pykey) (d : dict_items) : option pyval :=
  match d with
  | [] => None
  | (k', v) :: r => if key_eqb k' k then Some v else dict_lookup k r
  end.

(** [d[k] = v]: an existing key keeps its place (and its key object). *)
Fixpoint dict_set (d : dict_items) (k : pykey) (v : pyval) : dict_items :=
  match d with
  | [] => [(k, v)]
  | (k', v') :: r =>
      if key_eqb k' k then (k', v) :: r else (k', v') :: dict_set r k v
  end.

(** [dict(pairs)] *)
Definition py_dict (pairs : list (pykey * pyval)) : dict_items :=
  fold_left (fun d kv => dict_set d (fst kv) (snd kv)) pairs [].

(** The keys of a Python [dict] are pairwise different. *)
Fixpoint keys_unique (d : dict_items) : bool :=
  match d with
  | [] => true
  | (k, _) :: r => negb (existsb (key_eqb k) (map fst r)) && keys_unique r
  end.

(** The values Python can build: every [dict] in them has unique keys. *)
Fixpoint well_formed (v : pyval) : bool :=
  match v with
  | PList xs | PTuple xs => forallb well_formed xs
  | PDict kvs =>
      keys_unique kvs && forallb (fun kv => well_formed (snd kv)) kvs
  | PObj _ attrs => forallb (fun a => well_formed (snd a)) attrs
  | _ => true
  end.

(** ** Exceptions and results *)

(** The exception classes that occur; all derive from [Exception]. *)
Inductive exn_class : Type :=
| TypeError
| AttributeError
| OSError.

Record exn : Type := mkExn { exn_cls : exn_class; exn_msg : pystr }.

(** [str(e)] for an exception raised with one message argument. *)
Definition py_str_exn (e : exn) : pystr := exn_msg e.

Inductive result (A : Type) : Type :=
| Ok (a : A)
| Raise (e : exn).
Arguments Ok {A} a.
Arguments Raise {A} e.

Definition rbind {A B} (r : result A) (k : A -> result B) : result B :=
  match r with
  | Ok a => k a
  | Raise e => Raise e
  end.

Declare Scope result_scope.
Delimit Scope result_scope with result.
Notation "x <- r ;; k" := (rbind r (fun x => k))
  (at level 61, r at next level, right associativity) : result_scope.

(** Left-to-right traversal stopping at the first exception. *)
Definition mapM {A B} (f : A -> result B) : list A -> result (list B) :=
  fix go (l : list A) : result (list B) :=
    match l with
    | [] => Ok []
    | x :: r => (y <- f x ;; ys <- go r ;; Ok (y :: ys))%result
    end.

(** ** Attribute and item access *)

(** [getattr(o, name, default)] for a [name] that no built-in type
    defines (as [aws_request_id]): only instances carry it. *)
Fixpoint attr_lookup (name : pystr) (attrs : list (pystr * pyval))
  : option pyval :=
  match attrs with
  | [] => None
  | (n, v) :: r => if pystr_eqb n name then Some v else attr_lookup name r
  end.

Definition py_getattr (o : pyval) (name : pystr) (default : pyval) : pyval :=
  match o with
  | PObj _ attrs =>
      match attr_lookup name attrs with
      | Some v => v
      | None => default
      end
  | _ => default
  end.

(** [o.get(key, default)]: [dict.get] on a dict; the other built-in
    values have no [get] ([AttributeError]); an instance attribute named
    [get] holds a value of the model, which is not callable. *)
Definition no_attribute (o : pyval) (name : pystr) : exn :=
  mkExn AttributeError
    (u "'" ++ type_name o ++ u "' object has no attribute '" ++ name ++ u "'").

Definition not_callable (f : pyval) : exn :=
  mkExn TypeError (u "'" ++ type_name f ++ u "' object is not callable").

Definition py_get (o : pyval) (key : pykey) (default : pyval) : result pyval :=
  match o with
  | PDict d =>
      match dict_lookup key d with
      | Some v => Ok v
      | None => Ok default
      end
  | PObj _ attrs =>
      match attr_lookup (u "get") attrs with
      | Some f => Raise (not_callable f)
      | None => Raise (no_attribute o (u "get"))
      end
  | _ => Raise (no_attribute o (u "get"))
  end.

(** [format(v, '')], what an f-string field [{v}] inserts.  For a [str]
    it is the string itself; [repr_other] stands for [repr] of containers,
    bytes and instances (it depends on the Unicode tables of the
    interpreter and is left open). *)
Definition py_format (repr_other : pyval -> pystr) (v : pyval) : pystr :=
  match v with
  | PStr s => s
  | PNone => u "None"
  | PBool true => u "True"
  | PBool false => u "False"
  | PInt z => int_repr z
  | _ => repr_other v
  end.

(** ** [json.dumps(o, ensure_ascii=False, indent=...)] *)

Definition hex_digit (d : N) : codepoint :=
  if d <? 10 then 48 + d else 87 + d.

(** [ESCAPE_DCT] of [json.encoder]: with [ensure_ascii=False] only the
    quote, the backslash and the control characters are escaped. *)
Definition escape_char (c : codepoint) : pystr :=
  if c =? 34 then [92; 34]
  else if c =? 92 then [92; 92]
  else if c =? 10 then [92; 110]
  else if c =? 13 then [92; 114]
  else if c =? 9 then [92; 116]
  else if c =? 8 then [92; 98]
  else if c =? 12 then [92; 102]
  else if c <? 32 then [92; 117; 48; 48; hex_digit (c / 16); hex_digit (c mod 16)]
  else [c].

Definition encode_basestring (s : pystr) : pystr :=
  34 :: flat_map escape_char s ++ [34].

(** Keys are coerced to [str]; a key of another type is a [TypeError]
    ([skipkeys] is false). *)
Definition key_to_str (k : pykey) : result pystr :=
  match k with
  | KStr s => Ok s
  | KInt z => Ok (int_repr z)
  | KBool true => Ok (u "true")
  | KBool false => Ok (u "false")
  | KNone => Ok (u "null")
  | KBytes _ =>
      Raise (mkExn TypeError
               (u "keys must be str, int, float, bool or None, not "
                  ++ key_type_name k))
  end.

Definition not_serializable (o : pyval) : exn :=
  mkExn TypeError
    (u "Object of type " ++ type_name o ++ u " is not JSON serializable").

(** [indent=None] gives the one-line form with separators [', '] and
    [': ']; [indent=n] puts every item on its own line, indented by [n]
    spaces per level, with separators [','] and [': ']. *)
Definition newline_indent (indent : option nat) (level : nat) : pystr :=
  match indent with
  | Some n => 10 :: repeat 32 (n * level)
  | None => []
  end.

Definition item_separator (indent : option nat) : pystr :=
  match indent with
  | Some _ => [44]
  | None => [44; 32]
  end.

Definition key_separator : pystr := [58; 32].

Fixpoint join (sep : pystr) (parts : list pystr) : pystr :=
  match parts with
  | [] => []
  | p :: r =>
      match r with
      | [] => p
      | _ :: _ => p ++ sep ++ join sep r
      end
  end.

Definition encode_container (indent : option nat) (level : nat)
    (opening closing : codepoint) (parts : list pystr) : pystr :=
  match parts with
  | [] => [opening; closing]
  | _ :: _ =>
      opening :: newline_indent indent (S level)
        ++ join (item_separator indent ++ newline_indent indent (S level)) parts
        ++ newline_indent indent level ++ [closing]
  end.

(** The encoder, with the [TypeError]s of [json.dumps].  It writes
    integers of any size and containers of any depth: the [ValueError]
    of the digit limit and the [RecursionError] of the interpreter are
    left to [within_limits], which the properties about the outcome of
    an invocation assume of the event and of the request id. *)
Fixpoint encode (indent : option nat) (level : nat) (o : pyval)
  : result pystr :=
  match o with
  | PNone => Ok (u "null")
  | PBool true => Ok (u "true")
  | PBool false => Ok (u "false")
  | PInt z => Ok (int_repr z)
  | PStr s => Ok (encode_basestring s)
  | PList xs | PTuple xs =>
      (parts <- mapM (encode indent (S level)) xs ;;
       Ok (encode_container indent level 91 93 parts))%result
  | PDict kvs =>
      (parts <- mapM (fun kv =>
                        k <- key_to_str (fst kv) ;;
                        v <- encode indent (S level) (snd kv) ;;
                        Ok (encode_basestring k ++ key_separator ++ v)) kvs ;;
       Ok (encode_container indent level 123 125 parts))%result
  | PBytes _ | PObj _ _ => Raise (not_serializable o)
  end.

Definition json_dumps (indent : option nat) (o : pyval) : result pystr :=
  encode indent 0 o.

(** ** [json.loads(s)]

    The scanner of [json.decoder] / [json.scanner] (strict mode).  [None]
    stands for [JSONDecodeError]; a number with a fraction or an exponent
    and the constants [NaN] and [Infinity] denote floats and are outside
    the value model: they are rejected here as well. *)

Definition is_ws (c : codepoint) : bool :=
  (c =? 32) || (c =? 9) || (c =? 10) || (c =? 13).

Fixpoint skip_ws (s : pystr) : pystr :=
  match s with
  | [] => []
  | c :: r => if is_ws c then skip_ws r else s
  end.

Definition is_digit (c : codepoint) : bool := (48 <=? c) && (c <=? 57).

Definition hex_val (c : codepoint) : option N :=
  if is_digit c then Some (c - 48)
  else if (97 <=? c) && (c <=? 102) then Some (c - 87)
  else if (65 <=? c) && (c <=? 70) then Some (c - 55)
  else None.

Definition hex4 (a b c d : codepoint) : option N :=
  match hex_val a, hex_val b, hex_val c, hex_val d with
  | Some x, Some y, Some z, Some w => Some (((x * 16 + y) * 16 + z) * 16 + w)
  | _, _, _, _ => None
  end.

Definition is_high_surrogate (c : N) : bool := (55296 <=? c) && (c <=? 56319).
Definition is_low_surrogate (c : N) : bool := (56320 <=? c) && (c <=? 57343).

Definition simple_escape (c : codepoint) : option codepoint :=
  if c =? 34 then Some 34
  else if c =? 92 then Some 92
  else if c =? 47 then Some 47
  else if c =? 98 then Some 8
  else if c =? 102 then Some 12
  else if c =? 110 then Some 10
  else if c =? 114 then Some 13
  else if c =? 116 then Some 9
  else None.

Definition cons_result (c : codepoint) (r : option (pystr * pystr))
  : option (pystr * pystr) :=
  match r with
  | Some (t, rest) => Some (c :: t, rest)
  | None => None
  end.

(** [scanstring]: the input starts after the opening quote; the result is
    the decoded string and what follows the closing quote. *)
Fixpoint scanstring (s : pystr) : option (pystr * pystr) :=
  match s with
  | [] => None
  | c :: r =>
      if c =? 34 then Some ([], r)
      else if c =? 92 then
        match r with
        | [] => None
        | e :: r1 =>
            if e =? 117 then
              match r1 with
              | h1 :: h2 :: h3 :: h4 :: r2 =>
                  match hex4 h1 h2 h3 h4 with
                  | None => None
                  | Some uni =>
                      match r2 with
                      | b :: e2 :: l1 :: l2 :: l3 :: l4 :: r4 =>
                          if is_high_surrogate uni && (b =? 92) && (e2 =? 117)
                          then
                            match hex4 l1 l2 l3 l4 with
                            | None => None
                            | Some uni2 =>
                                if is_low_surrogate uni2 then
                                  cons_result
                                    (65536 + ((uni - 55296) * 1024
                                              + (uni2 - 56320)))
                                    (scanstring r4)
                                else cons_result uni (scanstring r2)
                            end
                          else cons_result uni (scanstring r2)
                      | _ => cons_result uni (scanstring r2)
                      end
                  end
              | _ => None
              end
            else
              match simple_escape e with
              | Some c' => cons_result c' (scanstring r1)
              | None => None
              end
        end
      else if c <? 32 then None
      else cons_result c (scanstring r)
  end.

Definition digit_cons (c : codepoint) (d : Decimal.uint) : Decimal.uint :=
  if c =? 48 then Decimal.D0 d
  else if c =? 49 then Decimal.D1 d
  else if c =? 50 then Decimal.D2 d
  else if c =? 51 then Decimal.D3 d
  else if c =? 52 then Decimal.D4 d
  else if c =? 53 then Decimal.D5 d
  else if c =? 54 then Decimal.D6 d
  else if c =? 55 then Decimal.D7 d
  else if c =? 56 then Decimal.D8 d
  else Decimal.D9 d.

Fixpoint take_digits (s : pystr) : Decimal.uint * pystr :=
  match s with
  | [] => (Decimal.Nil, [])
  | c :: r =>
      if is_digit c then
        let (d, rest) := take_digits r in (digit_cons c d, rest)
      else (Decimal.Nil, s)
  end.

(** Does a fraction or an exponent follow the integer part? *)
Definition float_follows (s : pystr) : bool :=
  match s with
  | c :: d :: r =>
      if c =? 46 then is_digit d
      else if (c =? 101) || (c =? 69) then
        is_digit d
        || (((d =? 43) || (d =? 45))
            && match r with x :: _ => is_digit x | [] => false end)
      else false
  | _ => false
  end.

(** [NUMBER_RE]: an optional minus sign, then [0] or a non-zero digit
    followed by digits; an [int] when no fraction or exponent follows. *)
Definition scan_number (s : pystr) : option (pyval * pystr) :=
  let (neg, s1) :=
    match s with
    | c :: r => if c =? 45 then (true, r) else (false, s)
    | [] => (false, s)
    end in
  match s1 with
  | [] => None
  | c :: r =>
      if is_digit c then
        let (d, rest) :=
          if c =? 48 then (Decimal.D0 Decimal.Nil, r) else take_digits s1 in
        if float_follows rest then None
        else
          let n := Z.of_N (N.of_uint d) in
          Some (PInt (if neg then Z.opp n else n), rest)
      else None
  end.

Definition strip_prefix (p s : pystr) : option pystr :=
  if starts_with p s then Some (skipn (length p) s) else None.

Definition scan_object_key (s : pystr) : option (pykey * pystr) :=
  match s with
  | c :: r =>
      if c =? 34 then
        match scanstring r with
        | Some (k, rest) =>
            match skip_ws rest with
            | c' :: rest' =>
                if c' =? 58 then Some (KStr k, skip_ws rest') else None
            | [] => None
            end
        | None => None
        end
      else None
  | [] => None
  end.

(** [scan_once], [JSONArray] and [JSONObject]; [fuel] bounds the number
    of values and items read, [json_loads] gives more than the text can
    use. *)
Fixpoint scan_once (fuel : nat) (s : pystr) : option (pyval * pystr) :=
  match fuel with
  | O => None
  | S f =>
      match s with
      | [] => None
      | c :: r =>
          if c =? 34 then
            match scanstring r with
            | Some (t, rest) => Some (PStr t, rest)
            | None => None
            end
          else if c =? 123 then
            match skip_ws r with
            | c' :: r' =>
                if c' =? 125 then Some (PDict [], r')
                else
                  match scan_members f (skip_ws r) with
                  | Some (pairs, rest) => Some (PDict (py_dict pairs), rest)
                  | None => None
                  end
            | [] => None
            end
          else if c =? 91 then
            match skip_ws r with
            | c' :: r' =>
                if c' =? 93 then Some (PList [], r')
                else
                  match scan_elements f (skip_ws r) with
                  | Some (xs, rest) => Some (PList xs, rest)
                  | None => None
                  end
            | [] => None
            end
          else
            match strip_prefix (u "null") s with
            | Some rest => Some (PNone, rest)
            | None =>
                match strip_prefix (u "true") s with
                | Some rest => Some (PBool true, rest)
                | None =>
                    match strip_prefix (u "false") s with
                    | Some rest => Some (PBool false, rest)
                    | None => scan_number s
                    end
                end
            end
      end
  end

with scan_elements (fuel : nat) (s : pystr) : option (list pyval * pystr) :=
  match fuel with
  | O => None
  | S f =>
      match scan_once f s with
      | None => None
      | Some (v, rest) =>
          match skip_ws rest with
          | c :: r =>
              if c =? 93 then Some ([v], r)
              else if c =? 44 then
                match scan_elements f (skip_ws r) with
                | Some (vs, rest') => Some (v :: vs, rest')
                | None => None
                end
              else None
          | [] => None
          end
      end
  end

with scan_members (fuel : nat) (s : pystr)
  : option (list (pykey * pyval) * pystr) :=
  match fuel with
  | O => None
  | S f =>
      match scan_object_key s with
      | None => None
      | Some (k, s1) =>
          match scan_once f s1 with
          | None => None
          | Some (v, rest) =>
              match skip_ws rest with
              | c :: r =>
                  if c =? 125 then Some ([(k, v)], r)
                  else if c =? 44 then
                    match scan_members f (skip_ws r) with
                    | Some (kvs, rest') => Some ((k, v) :: kvs, rest')
                    | None => None
                    end
                  else None
              | [] => None
              end
          end
      end
  end.

(** [json.loads]: one value between optional whitespace, nothing after. *)
Definition json_loads (s : pystr) : option pyval :=
  match scan_once (S (length s)) (skip_ws s) with
  | Some (v, rest) =>
      match skip_ws rest with
      | [] => Some v
      | _ :: _ => None
      end
  | None => None
  end.

(** ** [datetime] *)

Record datetime : Type := mkDatetime {
  year : N; month : N; day : N;
  hour : N; minute : N; second : N; microsecond : N
}.

(** The field ranges every [datetime] object satisfies ([MINYEAR] is 1,
    [MAXYEAR] is 9999). *)
Definition valid_datetime (d : datetime) : bool :=
  (1 <=? year d) && (year d <=? 9999)
  && (1 <=? month d) && (month d <=? 12)
  && (1 <=? day d) && (day d <=? 31)
  && (hour d <? 24) && (minute d <? 60) && (second d <? 60)
  && (microsecond d <? 1000000).

(** [datetime.isoformat()] of a naive datetime:
    [YYYY-MM-DDTHH:MM:SS], followed by [.ffffff] when the microsecond is
    not zero. *)
Definition isoformat (d : datetime) : pystr :=
  pad 4 (year d) ++ u "-" ++ pad 2 (month d) ++ u "-" ++ pad 2 (day d)
    ++ u "T" ++ pad 2 (hour d) ++ u ":" ++ pad 2 (minute d)
    ++ u ":" ++ pad 2 (second d)
    ++ (if microsecond d =? 0 then [] else u "." ++ pad 6 (microsecond d)).

(** The ISO-8601 reading of a UTC timestamp, following the words of the
    specification: a calendar date, [T], a time of day with an optional
    fraction of six digits, and the literal [Z]. *)
Fixpoint read_digits (w : nat) (s : pystr) : option (Decimal.uint * pystr) :=
  match w with
  | O => Some (Decimal.Nil, s)
  | S w' =>
      match s with
      | c :: r =>
          if is_digit c then
            match read_digits w' r with
            | Some (d, rest) => Some (digit_cons c d, rest)
            | None => None
            end
          else None
      | [] => None
      end
  end.

Definition read_field (w : nat) (s : pystr) : option (N * pystr) :=
  match read_digits w s with
  | Some (d, rest) => Some (N.of_uint d, rest)
  | None => None
  end.

Definition expect (c : codepoint) (s : pystr) : option pystr :=
  match s with
  | c' :: r => if c' =? c then Some r else None
  | [] => None
  end.

Definition obind {A B} (o : option A) (k : A -> option B) : option B :=
  match o with
  | Some a => k a
  | None => None
  end.

Definition parse_iso8601_utc (s : pystr) : option datetime :=
  obind (read_field 4 s) (fun '(y, s) =>
  obind (expect 45 s) (fun s =>
  obind (read_field 2 s) (fun '(mo, s) =>
  obind (expect 45 s) (fun s =>
  obind (read_field 2 s) (fun '(d, s) =>
  obind (expect 84 s) (fun s =>
  obind (read_field 2 s) (fun '(h, s) =>
  obind (expect 58 s) (fun s =>
  obind (read_field 2 s) (fun '(mi, s) =>
  obind (expect 58 s) (fun s =>
  obind (read_field 2 s) (fun '(se, s) =>
  obind (match expect 46 s with
         | Some s' => read_field 6 s'
         | None => Some (0, s)
         end) (fun '(us, s) =>
  match s with
  | [90] =>
      let d := mkDatetime y mo d h mi se us in
      if valid_datetime d then Some d else None
  | _ => None
  end)))))))))))).

(** ** The host: log sink, clock and interpreter version *)

Inductive log_level : Type := INFO | ERROR.

Record log_record : Type := mkRecord {
  rec_level : log_level;
  rec_msg : pystr;
  rec_exc_info : option exn
}.

(** What an invocation can change and observe: the records emitted so
    far and the number of clock readings taken. *)
Record world : Type := mkWorld {
  w_log : list log_record;
  w_ticks : nat
}.

(** Computations that read and change the world and may raise. *)
Definition M (A : Type) : Type := world -> result A * world.

Definition ret {A} (a : A) : M A := fun w => (Ok a, w).

Definition bind {A B} (m : M A) (k : A -> M B) : M B :=
  fun w =>
    match m w with
    | (Ok a, w') => k a w'
    | (Raise e, w') => (Raise e, w')
    end.

Definition lift {A} (r : result A) : M A := fun w => (r, w).

(** [try: body except Exception as e: handler(e)] *)
Definition try_except {A} (body : M A) (handler : exn -> M A) : M A :=
  fun w =>
    match body w with
    | (Ok a, w') => (Ok a, w')
    | (Raise e, w') => handler e w'
    end.

Declare Scope M_scope.
Delimit Scope M_scope with M.
Notation "x <- m ;; k" := (bind m (fun x => k))
  (at level 61, m at next level, right associativity) : M_scope.
Notation "m ;; k" := (bind m (fun _ => k))
  (at level 61, right associativity) : M_scope.

Section Handler.

(** [sys.version_info] as (major, minor, micro). *)
Variable version_info : N * N * N.

(** The reading [datetime.utcnow()] returns at its n-th call. *)
Variable clock : nat -> datetime.

(** The configured log handlers: [None] when a record is emitted,
    [Some e] when emitting it raises [e]. *)
Variable sink : log_record -> option exn.

(** [repr] of the values [py_format] leaves open. *)
Variable repr_other : pyval -> pystr.

(** A logging call for the record [r].  The level check of
    [Logger.info] and [Logger.error] is not modelled: a call that
    returns appends its record.  Line 14 enables INFO and ERROR unless
    the host has configured the root logger before; under a host that
    filters a level the calls of that level return without a record. *)
Definition emit (r : log_record) : M unit :=
  fun w =>
    match sink r with
    | None => (Ok tt, mkWorld (w_log w ++ [r]) (w_ticks w))
    | Some e => (Raise e, w)
    end.

(** [logger.info(msg)] *)
Definition logger_info (msg : pystr) : M unit :=
  emit (mkRecord INFO msg None).

(** [logger.error(msg, exc_info=True)] inside the handler of [e] *)
Definition logger_error (msg : pystr) (e : exn) : M unit :=
  emit (mkRecord ERROR msg (Some e)).

(** [datetime.utcnow()] *)
Definition utcnow : M datetime :=
  fun w => (Ok (clock (w_ticks w)), mkWorld (w_log w) (S (w_ticks w))).

Definition get_python_version : pystr :=
  let '(major, minor, micro) := version_info in
  nat_repr major ++ u "." ++ nat_repr minor ++ u "." ++ nat_repr micro.

Definition json_content_type : pyval :=
  PStr (u "application/json; charset=utf-8").

(** [request_id = getattr(context, 'aws_request_id', 'unknown')
                  if context else 'local'] *)
Definition request_id_of (context : pyval) : pyval :=
  if py_truthy context
  then py_getattr context (u "aws_request_id") (PStr (u "unknown"))
  else PStr (u "local").

Definition message_prefix : pystr := u "🔥 闘魂Python Lambda 成功だ！ - ".
Definition default_message : pystr := u "闘魂注入!".

Definition response_data (event request_id : pyval) (current_time : pystr)
    (input_message test_param : pyval) : pyval :=
  PDict
    [ (KStr (u "message"),
        PStr (message_prefix ++ py_format repr_other input_message));
      (KStr (u "timestamp"), PStr current_time);
      (KStr (u "request_id"), request_id);
      (KStr (u "python_version"), PStr get_python_version);
      (KStr (u "input_event"), event);
      (KStr (u "processed_by"), PStr (u "Python闘魂エンジン"));
      (KStr (u "status"), PStr (u "VICTORY!"));
      (KStr (u "toukon_power"), PStr (u "MAX"));
      (KStr (u "test_param"), test_param) ].

Definition success_headers : pyval :=
  PDict
    [ (KStr (u "Content-Type"), json_content_type);
      (KStr (u "X-Toukon-Power"), PStr (u "MAX"));
      (KStr (u "X-Python-Engine"), PStr (u "True")) ].

Definition error_headers : pyval :=
  PDict
    [ (KStr (u "Content-Type"), json_content_type);
      (KStr (u "X-Toukon-Error"), PStr (u "True")) ].

Definition error_data (e : exn) (current_time : pystr) : pyval :=
  PDict
    [ (KStr (u "error"), PStr (u "闘魂処理でエラーが発生しました"));
      (KStr (u "message"), PStr (py_str_exn e));
      (KStr (u "timestamp"), PStr current_time);
      (KStr (u "status"), PStr (u "ERROR")) ].

Definition envelope (status : Z) (headers : pyval) (body : pystr) : pyval :=
  PDict
    [ (KStr (u "statusCode"), PInt status);
      (KStr (u "headers"), headers);
      (KStr (u "body"), PStr body) ].

Local Open Scope M_scope.

(** The body of the [try] statement, lines 30-68. *)
Definition try_body (event context : pyval) : M pyval :=
  logger_info (u "🔥 闘魂Python Lambda 開始!") ;;
  dumped <- lift (json_dumps None event) ;;
  logger_info (u "受信イベント: " ++ dumped) ;;
  let request_id := request_id_of context in
  now <- utcnow ;;
  let current_time := isoformat now ++ u "Z" in
  input_message <-
    lift (py_get event (KStr (u "message")) (PStr default_message)) ;;
  test_param <- lift (py_get event (KStr (u "test")) (PStr (u "default"))) ;;
  let data :=
    response_data event request_id current_time input_message test_param in
  body <- lift (json_dumps (Some 2%nat) data) ;;
  let response := envelope 200 success_headers body in
  logger_info (u "🔥 闘魂Python Lambda 完了!") ;;
  ret response.

(** The [except Exception as e] block, lines 70-88. *)
Definition except_block (e : exn) : M pyval :=
  logger_error (u "💥 闘魂エラー発生: " ++ py_str_exn e) e ;;
  now <- utcnow ;;
  body <- lift (json_dumps (Some 2%nat)
                  (error_data e (isoformat now ++ u "Z"))) ;;
  ret (envelope 500 error_headers body).

Definition lambda_handler (event context : pyval) : M pyval :=
  try_except (try_body event context) except_block.

(** The payload mapping of the success path, for the clock reading
    [now]. *)
Definition payload_of (event context : pyval) (now : datetime)
  : result pyval :=
  (input_message <-
     py_get event (KStr (u "message")) (PStr default_message) ;;
   test_param <- py_get event (KStr (u "test")) (PStr (u "default")) ;;
   Ok (response_data event (request_id_of context)
         (isoformat now ++ u "Z") input_message test_param))%result.

End Handler.

(** ** Reading an envelope *)

Definition item (o : pyval) (key : pystr) : option pyval :=
  match o with
  | PDict d => dict_lookup (KStr key) d
  | _ => None
  end.

Definition status_code (env : pyval) : option pyval := item env (u "statusCode").
Definition headers_of (env : pyval) : option pyval := item env (u "headers").

(** The body string of an envelope, parsed. *)
Definition body_json (env : pyval) : option pyval :=
  match item env (u "body") with
  | Some (PStr s) => json_loads s
  | _ => None
  end.

(** ** What [json.loads] gives back for a serialised value

    [json_image o] is [o] as JSON can express it: tuples become lists and
    every key becomes the [str] written for it; keys that collide after
    this coercion are merged as [dict(pairs)] merges them. *)

Definition key_text (k : pykey) : pystr :=
  match key_to_str k with
  | Ok s => s
  | Raise _ => []
  end.

Fixpoint json_image (o : pyval) : pyval :=
  match o with
  | PList xs | PTuple xs => PList (map json_image xs)
  | PDict kvs =>
      PDict (py_dict (map (fun kv => (KStr (key_text (fst kv)),
                                      json_image (snd kv))) kvs))
  | _ => o
  end.

Definition is_str_key (k : pykey) : bool :=
  match k with
  | KStr _ => true
  | _ => false
  end.

(** Values built only from [None], booleans, integers, strings, lists
    and dicts with [str] keys. *)
Fixpoint json_native (o : pyval) : bool :=
  match o with
  | PNone | PBool _ | PInt _ | PStr _ => true
  | PList xs => forallb json_native xs
  | PDict kvs =>
      forallb (fun kv => is_str_key (fst kv) && json_native (snd kv)) kvs
  | PTuple _ | PBytes _ | PObj _ _ => false
  end.

(** Python's [==] on the values of the model.  Booleans compare as the
    integers 0 and 1, a list never equals a tuple, dicts compare without
    regard to order; two instances are equal when they are the same
    object, which the tree model identifies with equal trees. *)
Definition val_num (o : pyval) : option Z :=
  match o with
  | PBool b => Some (if b then 1 else 0)%Z
  | PInt z => Some z
  | _ => None
  end.

Fixpoint py_eq (a b : pyval) : bool :=
  let all2 :=
    fix all2 (xs ys : list pyval) : bool :=
      match xs, ys with
      | [], [] => true
      | x :: xs', y :: ys' => py_eq x y && all2 xs' ys'
      | _, _ => false
      end in
  match a, b with
  | PNone, PNone => true
  | PStr s, PStr t => pystr_eqb s t
  | PBytes s, PBytes t => pystr_eqb s t
  | PList xs, PList ys => all2 xs ys
  | PTuple xs, PTuple ys => all2 xs ys
  | PDict d1, PDict d2 =>
      (length d1 =? length d2)%nat
      && forallb (fun kv =>
                    match dict_lookup (fst kv) d2 with
                    | Some v' => py_eq (snd kv) v'
                    | None => false
                    end) d1
  | PObj c1 a1, PObj c2 a2 =>
      pystr_eqb c1 c2
      && (fix attrs2 (xs ys : list (pystr * pyval)) : bool :=
            match xs, ys with
            | [], [] => true
            | x :: xs', y :: ys' =>
                pystr_eqb (fst x) (fst y) && py_eq (snd x) (snd y)
                && attrs2 xs' ys'
            | _, _ => false
            end) a1 a2
  | _, _ =>
      match val_num a, val_num b with
      | Some x, Some y => (x =? y)%Z
      | _, _ => false
      end
  end.

(** An envelope as the invocation contract describes it: exactly the
    fields [statusCode] (200 or 500), [headers] (a mapping of strings)
    and [body] (a string). *)
Definition is_str_entry (kv : pykey * pyval) : bool :=
  match kv with
  | (KStr _, PStr _) => true
  | _ => false
  end.

Definition well_formed_envelope (env : pyval) : bool :=
  match env with
  | PDict [(KStr k1, PInt code); (KStr k2, PDict hs); (KStr k3, PStr _)] =>
      pystr_eqb k1 (u "statusCode") && pystr_eqb k2 (u "headers")
      && pystr_eqb k3 (u "body")
      && ((code =? 200)%Z || (code =? 500)%Z)
      && forallb is_str_entry hs
  | _ => false
  end.

(** The attribute [name] of [o], when [o] is an instance that has it. *)
Definition attr_of (o : pyval) (name : pystr) : option pyval :=
  match o with
  | PObj _ attrs => attr_lookup name attrs
  | _ => None
  end.

(** ** The records and worlds of an invocation *)

(** The records [try_body] and [except_block] emit. *)
Definition start_record : log_record :=
  mkRecord INFO (u "🔥 闘魂Python Lambda 開始!") None.
Definition event_record (dumped : pystr) : log_record :=
  mkRecord INFO (u "受信イベント: " ++ dumped) None.
Definition done_record : log_record :=
  mkRecord INFO (u "🔥 闘魂Python Lambda 完了!") None.
Definition error_record (e : exn) : log_record :=
  mkRecord ERROR (u "💥 闘魂エラー発生: " ++ py_str_exn e) (Some e).

(** The world after emitting [rs], with [ticks] clock readings taken. *)
Definition after_log (w : world) (rs : list log_record) (ticks : nat) : world :=
  mkWorld (w_log w ++ rs) ticks.

(** The body of the 500 envelope. *)
Definition error_body (e : exn) (current_time : pystr) : pystr :=
  match json_dumps (Some 2%nat) (error_data e current_time) with
  | Ok s => s
  | Raise _ => []
  end.

(** ** Notions used in the proofs *)

(** What may follow a number in a JSON text without changing it. *)
Definition no_digit_head (s : pystr) : bool :=
  match s with
  | [] => true
  | c :: _ => negb (is_digit c)
  end.

Definition int_follow_ok (s : pystr) : bool :=
  match s with
  | [] => true
  | c :: _ =>
      negb (is_digit c) && negb (c =? 46) && negb (c =? 101) && negb (c =? 69)
  end.

(** The characters a serialised value can start with. *)
Definition value_head (c : codepoint) : bool :=
  (c =? 34) || (c =? 123) || (c =? 91) || (c =? 110) || (c =? 116)
  || (c =? 102) || (c =? 45) || is_digit c.

(** One [key: value] item of a serialised dict, as [encode] writes it. *)
Definition encode_item (indent : option nat) (level : nat)
    (kv : pykey * pyval) : result pystr :=
  (k <- key_to_str (fst kv) ;;
   v <- encode indent (S level) (snd kv) ;;
   Ok (encode_basestring k ++ key_separator ++ v))%result.

(** Scanning what [encode] wrote for [v], followed by [rest], gives the
    JSON image of [v] and leaves [rest]. *)
Definition scans_back (v : pyval) : Prop :=
  forall indent level s,
    encode indent level v = Ok s ->
    forall rest fuel,
      int_follow_ok rest = true -> (length s < fuel)%nat ->
      scan_once fuel (s ++ rest) = Some (json_image v, rest).

(** [f] holds of the [fuel] numbers from [n] on. *)
Fixpoint all_from (fuel : nat) (n : N) (f : N -> bool) : bool :=
  match fuel with
  | O => true
  | S k => if f n then all_from k (N.succ n) f else false
  end.

(** [n] prints in at most [w] digits. *)
Definition repr_fits (w : nat) (n : N) : bool :=
  (length (nat_repr n) <=? w)%nat.

(** [k] leading zeros. *)
Fixpoint zeros (k : nat) (d : Decimal.uint) : Decimal.uint :=
  match k with
  | O => d
  | S k' => Decimal.D0 (zeros k' d)
  end.

(** ** A concrete host and sample invocations *)

Definition sample_version : N * N * N := (3, 11, 4).
Definition sample_clock (n : nat) : datetime :=
  mkDatetime 2025 8 2 12 30 15 123456.
Definition quiet_sink (r : log_record) : option exn := None.
Definition failing_error_sink (r : log_record) : option exn :=
  match rec_level r with
  | ERROR => Some (mkExn OSError (u "log stream closed"))
  | INFO => None
  end.
Definition sample_repr (o : pyval) : pystr := u "<object>".

(** The event of the [__main__] block of the source. *)
Definition test_event : pyval :=
  PDict [ (KStr (u "test"), PStr (u "toukon"));
          (KStr (u "message"), PStr (u "Python闘魂テスト from ローカル")) ].

Definition tuple_event : pyval :=
  PDict [ (KStr (u "pair"), PTuple [PInt 1; PInt 2]) ].

Definition bytes_event : pyval :=
  PDict [ (KStr (u "data"), PBytes [0; 255]) ].

Definition world0 : world := mkWorld [] 0.

Definition sample_handler : pyval -> pyval -> M pyval :=
  lambda_handler sample_version sample_clock quiet_sink sample_repr.

Definition returned (o : result pyval * world) : pyval :=
  match fst o with
  | Ok env => env
  | Raise _ => PNone
  end.

Definition fragile_handler : pyval -> pyval -> M pyval :=
  lambda_handler sample_version sample_clock failing_error_sink sample_repr.

Definition later_world : world :=
  mkWorld [mkRecord INFO (u "earlier invocation") None] 7.

(** ** The values [json.dumps] encodes *)

Definition is_dict (o : pyval) : bool :=
  match o with
  | PDict _ => true
  | _ => false
  end.

Definition key_serializable (k : pykey) : bool :=
  match k with
  | KBytes _ => false
  | _ => true
  end.

(** The values built only from what [json.dumps] encodes: no [bytes],
    no instances, no [bytes] keys.  Within the interpreter's limits
    ([within_limits] below) these are the values [json.dumps] writes
    without raising. *)
Fixpoint json_serializable (o : pyval) : bool :=
  match o with
  | PNone | PBool _ | PInt _ | PStr _ => true
  | PList xs | PTuple xs => forallb json_serializable xs
  | PDict kvs =>
      forallb (fun kv => key_serializable (fst kv)
                         && json_serializable (snd kv)) kvs
  | PBytes _ | PObj _ _ => false
  end.

(** [encode] succeeds for every layout, or raises the same [TypeError]
    for every layout. *)
Definition encodes (o : pyval) : Prop :=
  (json_serializable o = true ->
   forall indent level, exists s, encode indent level o = Ok s)
  /\ (json_serializable o = false ->
      exists e, exn_cls e = TypeError
                /\ forall indent level, encode indent level o = Raise e).

(** ** The limits of the interpreter

    CPython converts an [int] to decimal digits only up to a limit
    ([sys.get_int_max_str_digits()], 4300 by default since 3.11, which
    cannot be set below 640): beyond it [json.dumps] and [str] raise
    [ValueError].  It serialises nested containers only as deep as the
    recursion limit leaves room for (1000 frames by default): beyond
    that [json.dumps] raises [RecursionError].  [encode] has neither
    limit.  [within_limits] holds of the values that stay below both,
    however the host has set the digit limit and with the default
    recursion limit: every [int], also as a key, has at most
    [max_digits] digits, and containers are nested at most
    [max_nesting] deep. *)

Definition max_digits : nat := 640.
Definition max_nesting : nat := 100.

Definition int_within (z : Z) : bool :=
  (length (nat_repr (Z.abs_N z)) <=? max_digits)%nat.

Definition key_within (k : pykey) : bool :=
  match k with
  | KInt z => int_within z
  | _ => true
  end.

(** [within depth o]: the integers of [o] are within the digit limit
    and [o] is nested at most [depth] containers deep. *)
Fixpoint within (depth : nat) (o : pyval) {struct o} : bool :=
  match o with
  | PInt z => int_within z
  | PList xs | PTuple xs =>
      match depth with
      | O => false
      | S d => forallb (within d) xs
      end
  | PDict kvs =>
      match depth with
      | O => false
      | S d => forallb (fun kv => key_within (fst kv) && within d (snd kv)) kvs
      end
  | _ => true
  end.

Definition within_limits (o : pyval) : bool := within max_nesting o.

(** ** Notions for the log and the output text *)

Definition is_info (r : log_record) : bool :=
  match rec_level r with
  | INFO => true
  | ERROR => false
  end.


(** A character [json.dumps(..., ensure_ascii=False)] writes as it is. *)
Definition unescaped (c : codepoint) : bool :=
  (32 <=? c) && negb (c =? 34) && negb (c =? 92).

(** [major.minor.micro] read back. *)
Definition parse_version (s : pystr) : option (N * N * N) :=
  let (major, s1) := take_digits s in
  obind (expect 46 s1) (fun s2 =>
  let (minor, s3) := take_digits s2 in
  obind (expect 46 s3) (fun s4 =>
  let (micro, s5) := take_digits s4 in
  match s5 with
  | [] => Some (N.of_uint major, N.of_uint minor, N.of_uint micro)
  | _ :: _ => None
  end)).

(** ** The [__main__] block *)

(** A run of the module as a script: the world of the handler and the
    text written to standard output so far. *)
Record process : Type := mkProcess {
  p_world : world;
  p_stdout : pystr
}.

Section Main.

Variable version_info : N * N * N.
Variable clock : nat -> datetime.
Variable sink : log_record -> option exn.
Variable repr_other : pyval -> pystr.

(** Writing a line to [sys.stdout]: [None] when it is written, [Some e]
    when the stream raises [e] (closed pipe, encoding). *)
Variable stdout_write : pystr -> option exn.

(** [print(s)] for a [str] *)
Definition print (s : pystr) (p : process) : result unit * process :=
  match stdout_write (s ++ [10]) with
  | None => (Ok tt, mkProcess (p_world p) (p_stdout p ++ s ++ [10]))
  | Some e => (Raise e, p)
  end.

(** Lines 98-108; the log that lines 14-15 configure is [sink]. *)
Definition main (p : process) : result unit * process :=
  match lambda_handler version_info clock sink repr_other
          test_event PNone (p_world p) with
  | (Raise e, w') => (Raise e, mkProcess w' (p_stdout p))
  | (Ok result, w') =>
      match print (u "🔥 テスト結果:") (mkProcess w' (p_stdout p)) with
      | (Raise e, p1) => (Raise e, p1)
      | (Ok _, p1) =>
          match json_dumps (Some 2%nat) result with
          | Raise e => (Raise e, p1)
          | Ok text => print text p1
          end
      end
  end.

End Main.

Definition quiet_stdout (s : pystr) : option exn := None.

Definition sample_main : process -> result unit * process :=
  main sample_version sample_clock quiet_sink sample_repr quiet_stdout.

Definition process0 : process := mkProcess world0 [].

(** A context as a test double gives it: its [aws_request_id] is
    another instance, not a string. *)
Definition mock_context : pyval :=
  PObj (u "MagicMock") [(u "aws_request_id", PObj (u "MagicMock") [])].

(** A logger whose INFO calls raise and whose ERROR calls return. *)
Definition failing_info_sink (r : log_record) : option exn :=
  match rec_level r with
  | INFO => Some (mkExn OSError (u "log stream closed"))
  | ERROR => None
  end.

(** ** Induction on values *)

Section PyvalInd.
Variable P : pyval -> Prop.
Hypothesis HNone : P PNone.
Hypothesis HBool : forall b, P (PBool b).
Hypothesis HInt : forall z, P (PInt z).
Hypothesis HStr : forall s, P (PStr s).
Hypothesis HBytes : forall b, P (PBytes b).
Hypothesis HList : forall xs, Forall P xs -> P (PList xs).
Hypothesis HTuple : forall xs, Forall P xs -> P (PTuple xs).
Hypothesis HDict :
  forall kvs, Forall (fun kv => P (snd kv)) kvs -> P (PDict kvs).
Hypothesis HObj :
  forall cls attrs, Forall (fun a => P (snd a)) attrs -> P (PObj cls attrs).

Fixpoint pyval_ind (o : pyval) : P o :=
  match o with
  | PNone => HNone
  | PBool b => HBool b
  | PInt z => HInt z
  | PStr s => HStr s
  | PBytes b => HBytes b
  | PList xs =>
      HList xs
        ((fix go (l : list pyval) : Forall P l :=
            match l with
            | [] => Forall_nil _
            | x :: r => Forall_cons x (pyval_ind x) (go r)
            end) xs)
  | PTuple xs =>
      HTuple xs
        ((fix go (l : list pyval) : Forall P l :=
            match l with
            | [] => Forall_nil _
            | x :: r => Forall_cons x (pyval_ind x) (go r)
            end) xs)
  | PDict kvs =>
      HDict kvs
        ((fix go (l : list (pykey * pyval))
            : Forall (fun kv => P (snd kv)) l :=
            match l with
            | [] => Forall_nil _
            | kv :: r => Forall_cons kv (pyval_ind (snd kv)) (go r)
            end) kvs)
  | PObj cls attrs =>
      HObj cls attrs
        ((fix go (l : list (pystr * pyval))
            : Forall (fun a => P (snd a)) l :=
            match l with
            | [] => Forall_nil _
            | a :: r => Forall_cons a (pyval_ind (snd a)) (go r)
            end) attrs)
  end.
End PyvalInd.

(** * Properties *)

(** ** [json.loads] after [json.dumps] *)

Lemma hex_escape_value c :
  c < 32 -> hex4 48 48 (hex_digit (c / 16)) (hex_digit (c mod 16)) = Some c.
Proof.
  intros H.
  destruct c as [|p]; [reflexivity|].
  do 5 (destruct p as [p|p|]; try reflexivity; try (exfalso; lia)).
Qed.

Lemma scanstring_u_escape h1 h2 h3 h4 r2 uni :
  hex4 h1 h2 h3 h4 = Some uni ->
  is_high_surrogate uni = false ->
  scanstring (92 :: 117 :: h1 :: h2 :: h3 :: h4 :: r2)
  = cons_result uni (scanstring r2).
Proof.
  intros Hh Hs.
  cbn [scanstring].
  change (92 =? 34) with false. change (92 =? 92) with true.
  change (117 =? 117) with true. cbv iota.
  rewrite Hh, Hs. cbn [andb].
  destruct r2 as [|b [|e2 [|l1 [|l2 [|l3 [|l4 r4]]]]]]; reflexivity.
Qed.

Lemma is_high_surrogate_small c : c < 32 -> is_high_surrogate c = false.
Proof.
  intros H. unfold is_high_surrogate.
  destruct (N.leb_spec 55296 c); [lia | reflexivity].
Qed.

Lemma scanstring_escape_char c tail :
  scanstring (escape_char c ++ tail) = cons_result c (scanstring tail).
Proof.
  unfold escape_char.
  destruct (N.eqb_spec c 34) as [->|H34]; [reflexivity|].
  destruct (N.eqb_spec c 92) as [->|H92]; [reflexivity|].
  destruct (N.eqb_spec c 10) as [->|H10]; [reflexivity|].
  destruct (N.eqb_spec c 13) as [->|H13]; [reflexivity|].
  destruct (N.eqb_spec c 9) as [->|H9]; [reflexivity|].
  destruct (N.eqb_spec c 8) as [->|H8]; [reflexivity|].
  destruct (N.eqb_spec c 12) as [->|H12]; [reflexivity|].
  destruct (N.ltb_spec c 32) as [Hlt|Hge].
  - cbn [app].
    apply scanstring_u_escape.
    + now apply hex_escape_value.
    + now apply is_high_surrogate_small.
  - cbn [app scanstring].
    apply N.eqb_neq in H34, H92. rewrite H34, H92.
    destruct (N.ltb_spec c 32); [lia | reflexivity].
Qed.

Lemma scanstring_escaped s rest :
  scanstring (flat_map escape_char s ++ 34 :: rest) = Some (s, rest).
Proof.
  induction s as [|c s IH]; [reflexivity|].
  cbn [flat_map]. rewrite <- app_assoc, scanstring_escape_char, IH.
  reflexivity.
Qed.

Lemma take_digits_uint d rest :
  no_digit_head rest = true ->
  take_digits (uint_chars d ++ rest) = (d, rest).
Proof.
  intros Hr.
  induction d as [|d IH|d IH|d IH|d IH|d IH|d IH|d IH|d IH|d IH|d IH];
    try (cbn [uint_chars app take_digits]; change (is_digit _) with true;
         cbv iota; rewrite IH; reflexivity).
  cbn [uint_chars app].
  destruct rest as [|c r]; [reflexivity|].
  cbn [take_digits]. cbn in Hr.
  destruct (is_digit c); [discriminate | reflexivity].
Qed.

Lemma nzhead_not_D0 d d' : Decimal.nzhead d <> Decimal.D0 d'.
Proof.
  induction d; cbn; try discriminate; assumption.
Qed.

Lemma unorm_D0_inv d d' : Decimal.unorm d = Decimal.D0 d' -> d' = Decimal.Nil.
Proof.
  unfold Decimal.unorm.
  destruct (Decimal.nzhead d) eqn:E; intros H; try discriminate.
  - now inversion H.
  - now apply nzhead_not_D0 in E.
Qed.

Lemma to_uint_normal n : Decimal.unorm (N.to_uint n) = N.to_uint n.
Proof.
  rewrite <- (DecimalN.Unsigned.to_of (N.to_uint n)).
  now rewrite DecimalN.Unsigned.of_to.
Qed.

(** The digits of a positive number start with a non-zero digit. *)
Lemma nat_repr_pos_head p :
  exists c r, nat_repr (Npos p) = c :: r
              /\ is_digit c = true /\ (c =? 48) = false /\ (c =? 45) = false.
Proof.
  unfold nat_repr.
  pose proof (to_uint_normal (Npos p)) as Hn.
  pose proof (DecimalPos.Unsigned.to_uint_nonzero p) as Hz.
  pose proof (DecimalPos.Unsigned.to_uint_nonnil p) as Hnil.
  change (N.to_uint (Npos p)) with (Pos.to_uint p) in *.
  destruct (Pos.to_uint p) as [|d|d|d|d|d|d|d|d|d|d]; cbn [uint_chars];
    try (eexists _, _; repeat split; reflexivity).
  - now contradiction Hnil.
  - apply unorm_D0_inv in Hn. subst d. now contradiction Hz.
Qed.

Lemma int_follow_no_digit s : int_follow_ok s = true -> no_digit_head s = true.
Proof.
  destruct s as [|c r]; [reflexivity|]. cbn.
  destruct (is_digit c); [discriminate | reflexivity].
Qed.

Lemma int_follow_no_float s : int_follow_ok s = true -> float_follows s = false.
Proof.
  destruct s as [|c [|d r]]; try reflexivity. cbn [int_follow_ok float_follows].
  destruct (c =? 46); [rewrite !andb_false_r; discriminate|].
  destruct (c =? 101); [rewrite !andb_false_r; discriminate|].
  destruct (c =? 69); [rewrite !andb_false_r; discriminate|].
  reflexivity.
Qed.

Lemma scan_number_nat n rest :
  int_follow_ok rest = true ->
  scan_number (nat_repr n ++ rest) = Some (PInt (Z.of_N n), rest).
Proof.
  intros Hf.
  destruct n as [|p].
  - cbn. rewrite (int_follow_no_float _ Hf). reflexivity.
  - destruct (nat_repr_pos_head p) as (c & r & E & Hd & H48 & H45).
    unfold scan_number. rewrite E. cbn [app]. rewrite H45, Hd, H48.
    rewrite app_comm_cons, <- E. unfold nat_repr.
    rewrite take_digits_uint by now apply int_follow_no_digit.
    rewrite (int_follow_no_float _ Hf).
    now rewrite DecimalN.Unsigned.of_to.
Qed.

Lemma scan_number_int z rest :
  int_follow_ok rest = true ->
  scan_number (int_repr z ++ rest) = Some (PInt z, rest).
Proof.
  intros Hf. destruct z as [|p|p].
  - apply (scan_number_nat 0 rest Hf).
  - apply (scan_number_nat (Npos p) rest Hf).
  - cbn [int_repr].
    destruct (nat_repr_pos_head p) as (c & r & E & Hd & H48 & H45).
    unfold scan_number. cbn [app]. change (45 =? 45) with true. cbv iota.
    rewrite E. cbn [app]. rewrite Hd, H48.
    rewrite app_comm_cons, <- E. unfold nat_repr.
    rewrite take_digits_uint by now apply int_follow_no_digit.
    rewrite (int_follow_no_float _ Hf).
    now rewrite DecimalN.Unsigned.of_to.
Qed.

Lemma value_head_cases c :
  value_head c = true ->
  c = 34 \/ c = 123 \/ c = 91 \/ c = 110 \/ c = 116 \/ c = 102 \/ c = 45
  \/ (48 <= c /\ c <= 57).
Proof.
  unfold value_head, is_digit.
  rewrite !orb_true_iff, andb_true_iff, !N.eqb_eq, !N.leb_le. tauto.
Qed.

Ltac head_cases H :=
  destruct H as [->|[->|[->|[->|[->|[->|[->|H]]]]]]]; try reflexivity.

Lemma value_head_not_ws c : value_head c = true -> is_ws c = false.
Proof.
  intros H. apply value_head_cases in H. unfold is_ws. head_cases H.
  rewrite !orb_false_iff, !N.eqb_neq. lia.
Qed.

Lemma value_head_not_closing c :
  value_head c = true -> (c =? 93) = false /\ (c =? 125) = false.
Proof.
  intros H. apply value_head_cases in H.
  head_cases H; try (split; reflexivity).
  rewrite !N.eqb_neq. lia.
Qed.

(** *** Whitespace *)

Lemma skip_ws_all w t : forallb is_ws w = true -> skip_ws (w ++ t) = skip_ws t.
Proof.
  induction w as [|c w IH]; [reflexivity|]. cbn [forallb app skip_ws].
  intros H. apply andb_prop in H as [Hc Hw]. rewrite Hc. auto.
Qed.

Lemma skip_ws_head c r : is_ws c = false -> skip_ws (c :: r) = c :: r.
Proof. intros H. cbn. now rewrite H. Qed.

Lemma spaces_ws n : forallb is_ws (repeat 32 n) = true.
Proof. induction n; [reflexivity | assumption]. Qed.

Lemma newline_indent_ws indent level :
  forallb is_ws (newline_indent indent level) = true.
Proof. destruct indent; [apply spaces_ws | reflexivity]. Qed.

Lemma item_separator_shape indent :
  exists w, item_separator indent = 44 :: w /\ forallb is_ws w = true.
Proof. destruct indent; eexists; split; reflexivity. Qed.

(** *** The first character of a serialised value *)

Lemma mapM_nil_inv {A B} (f : A -> result B) l :
  mapM f l = Ok [] -> l = [].
Proof.
  destruct l as [|x r]; [reflexivity|]. cbn.
  destruct (f x); [|discriminate]. cbn.
  destruct (mapM f r); discriminate.
Qed.

Lemma mapM_cons_inv {A B} (f : A -> result B) x r ys :
  mapM f (x :: r) = Ok ys ->
  exists y ys', f x = Ok y /\ mapM f r = Ok ys' /\ ys = y :: ys'.
Proof.
  cbn. destruct (f x) as [y|]; [|discriminate]. cbn.
  destruct (mapM f r) as [ys'|]; [|discriminate]. cbn.
  intros [= <-]. eauto.
Qed.

Lemma encode_container_head indent level o c parts :
  exists r, encode_container indent level o c parts = o :: r.
Proof. destruct parts; eexists; reflexivity. Qed.

Lemma encode_head indent level v s :
  encode indent level v = Ok s ->
  exists c r, s = c :: r /\ value_head c = true.
Proof.
  destruct v as [| [|] |z|t|b|xs|xs|kvs|cls attrs]; cbn [encode];
    try (intros [= <-]; eexists _, _; split; reflexivity);
    try discriminate.
  - intros [= <-]. destruct z as [|p|p].
    + eexists _, _; split; reflexivity.
    + destruct (nat_repr_pos_head p) as (c & r & E & Hd & _).
      exists c, r. split; [exact E|]. unfold value_head. rewrite Hd.
      now rewrite !orb_true_r.
    + eexists _, _; split; reflexivity.
  - destruct (mapM _ xs) as [parts|]; [|discriminate]. intros [= <-].
    destruct (encode_container_head indent level 91 93 parts) as [r ->].
    eexists _, _; split; reflexivity.
  - destruct (mapM _ xs) as [parts|]; [|discriminate]. intros [= <-].
    destruct (encode_container_head indent level 91 93 parts) as [r ->].
    eexists _, _; split; reflexivity.
  - destruct (mapM _ kvs) as [parts|]; [|discriminate]. intros [= <-].
    destruct (encode_container_head indent level 123 125 parts) as [r ->].
    eexists _, _; split; reflexivity.
Qed.

(** *** Scalars *)

Lemma number_head_cases c :
  is_digit c || (c =? 45) = true -> c = 45 \/ (48 <= c /\ c <= 57).
Proof.
  unfold is_digit.
  rewrite orb_true_iff, andb_true_iff, N.eqb_eq, !N.leb_le. tauto.
Qed.

Lemma scan_once_number f c r :
  is_digit c || (c =? 45) = true ->
  scan_once (S f) (c :: r) = scan_number (c :: r).
Proof.
  intros H. apply number_head_cases in H. cbn [scan_once].
  assert (Hne : (c =? 34) = false /\ (c =? 123) = false /\ (c =? 91) = false
                /\ (110 =? c) = false /\ (116 =? c) = false
                /\ (102 =? c) = false).
  { destruct H as [->|H]; [repeat split; reflexivity|].
    rewrite !N.eqb_neq. lia. }
  destruct Hne as (H34 & H123 & H91 & H110 & H116 & H102).
  rewrite H34, H123, H91. unfold strip_prefix.
  change (u "null") with [110; 117; 108; 108].
  change (u "true") with [116; 114; 117; 101].
  change (u "false") with [102; 97; 108; 115; 101].
  cbn [starts_with]. rewrite H110, H116, H102. reflexivity.
Qed.

Lemma scan_once_int f z rest :
  int_follow_ok rest = true ->
  scan_once (S f) (int_repr z ++ rest) = Some (PInt z, rest).
Proof.
  intros Hf.
  assert (exists c r, int_repr z = c :: r /\ is_digit c || (c =? 45) = true)
    as (c & r & E & Hc).
  { destruct z as [|p|p].
    - eexists _, _; split; reflexivity.
    - destruct (nat_repr_pos_head p) as (c & r & E & Hd & _).
      exists c, r. split; [exact E | now rewrite Hd].
    - eexists _, _; split; reflexivity. }
  rewrite <- (scan_number_int z rest Hf).
  rewrite E. cbn [app]. now apply scan_once_number.
Qed.

Lemma join_cons2 sep p q r :
  join sep (p :: q :: r) = p ++ sep ++ join sep (q :: r).
Proof. reflexivity. Qed.

Lemma join_cons_head sep c r ps t :
  exists r', join sep ((c :: r) :: ps) ++ t = c :: r'.
Proof. destruct ps; cbn [join app]; eexists; reflexivity. Qed.

Lemma skip_ws_value c r :
  value_head c = true -> skip_ws (c :: r) = c :: r.
Proof. intros H. apply skip_ws_head. now apply value_head_not_ws. Qed.

Lemma follow_closing indent level c rest :
  c = 93 \/ c = 125 ->
  int_follow_ok (newline_indent indent level ++ c :: rest) = true.
Proof. intros [-> | ->]; destruct indent; reflexivity. Qed.

Lemma follow_separator indent t :
  int_follow_ok (item_separator indent ++ t) = true.
Proof. destruct indent; reflexivity. Qed.

Lemma skip_separator indent level t :
  exists w, (item_separator indent ++ newline_indent indent level) ++ t
            = 44 :: w ++ t
            /\ forallb is_ws w = true.
Proof.
  destruct (item_separator_shape indent) as (w & E & Hw).
  exists (w ++ newline_indent indent level). split.
  - rewrite E. cbn [app]. now rewrite <- !app_assoc.
  - rewrite forallb_app. apply andb_true_intro.
    split; [exact Hw | apply newline_indent_ws].
Qed.

Lemma scan_elements_join indent level xs :
  Forall scans_back xs ->
  forall parts,
    mapM (encode indent (S level)) xs = Ok parts ->
    xs <> [] ->
    forall rest fuel,
      (S (length (join (item_separator indent
                          ++ newline_indent indent (S level)) parts))
       < fuel)%nat ->
      scan_elements fuel
        (join (item_separator indent ++ newline_indent indent (S level)) parts
           ++ newline_indent indent level ++ 93 :: rest)
      = Some (map json_image xs, rest).
Proof.
  set (sep := item_separator indent ++ newline_indent indent (S level)).
  induction 1 as [|x xs Hx Hxs IH]; [congruence|].
  intros parts Hm _ rest fuel Hfuel.
  apply mapM_cons_inv in Hm as (p & ps & Hp & Hps & ->).
  destruct fuel as [|f]; [lia|]. cbn [scan_elements].
  destruct xs as [|x2 xs'].
  - cbn in Hps. injection Hps as <-. cbn [join] in *.
    rewrite (Hx _ _ _ Hp) by (try apply follow_closing; auto; lia).
    rewrite skip_ws_all by apply newline_indent_ws.
    reflexivity.
  - destruct (mapM_cons_inv _ _ _ _ Hps) as (p2 & ps' & Hp2 & _ & ->).
    rewrite join_cons2 in *. rewrite !length_app in Hfuel.
    rewrite <- !app_assoc.
    rewrite (Hx _ _ _ Hp);
      [ | unfold sep; rewrite <- app_assoc; apply follow_separator | lia ].
    destruct (skip_separator indent (S level)
                (join sep (p2 :: ps')
                   ++ newline_indent indent level ++ 93 :: rest))
      as (w & Ew & Hw).
    fold sep in Ew. rewrite Ew.
    cbn [skip_ws]. change (is_ws 44) with false. cbv iota.
    change (44 =? 93) with false. change (44 =? 44) with true. cbv iota.
    rewrite skip_ws_all by exact Hw.
    destruct (encode_head _ _ _ _ Hp2) as (c & r & -> & Hc).
    destruct (join_cons_head sep c r ps'
                (newline_indent indent level ++ 93 :: rest)) as (r' & Ej).
    rewrite Ej, (skip_ws_value _ _ Hc), <- Ej.
    rewrite IH; [reflexivity | exact Hps | discriminate | ].
    assert (1 <= length sep)%nat
      by (unfold sep; destruct indent; cbn [item_separator length app]; lia).
    lia.
Qed.

Lemma scan_object_key_item k c r t :
  value_head c = true ->
  scan_object_key (encode_basestring k ++ key_separator ++ (c :: r) ++ t)
  = Some (KStr k, (c :: r) ++ t).
Proof.
  intros Hc. unfold encode_basestring, key_separator.
  cbn [app scan_object_key]. change (34 =? 34) with true. cbv iota.
  rewrite <- app_assoc. cbn [app]. rewrite scanstring_escaped.
  cbn [skip_ws]. change (is_ws 58) with false. cbv iota.
  change (58 =? 58) with true. cbv iota.
  cbn [skip_ws]. change (is_ws 32) with true. cbv iota.
  now rewrite (value_head_not_ws _ Hc).
Qed.

Lemma encode_item_inv indent level kv part :
  encode_item indent level kv = Ok part ->
  exists k v, key_to_str (fst kv) = Ok k
              /\ encode indent (S level) (snd kv) = Ok v
              /\ part = encode_basestring k ++ key_separator ++ v.
Proof.
  unfold encode_item.
  destruct (key_to_str (fst kv)) as [k|]; [|discriminate]. cbn [rbind].
  destruct (encode indent (S level) (snd kv)) as [v|]; [|discriminate].
  cbn [rbind]. intros [= <-]. eauto.
Qed.

Lemma encode_dict_unfold indent level kvs :
  encode indent level (PDict kvs)
  = (parts <- mapM (encode_item indent level) kvs ;;
     Ok (encode_container indent level 123 125 parts))%result.
Proof. reflexivity. Qed.

Lemma scan_members_join indent level kvs :
  Forall (fun kv => scans_back (snd kv)) kvs ->
  forall parts,
    mapM (encode_item indent level) kvs = Ok parts ->
    kvs <> [] ->
    forall rest fuel,
      (S (length (join (item_separator indent
                          ++ newline_indent indent (S level)) parts))
       < fuel)%nat ->
      scan_members fuel
        (join (item_separator indent ++ newline_indent indent (S level)) parts
           ++ newline_indent indent level ++ 125 :: rest)
      = Some (map (fun kv => (KStr (key_text (fst kv)), json_image (snd kv)))
                kvs, rest).
Proof.
  set (sep := item_separator indent ++ newline_indent indent (S level)).
  assert (Hsep : (1 <= length sep)%nat)
    by (unfold sep; destruct indent; cbn [item_separator length app]; lia).
  induction 1 as [|kv kvs Hx Hxs IH]; [congruence|].
  intros parts Hm _ rest fuel Hfuel.
  apply mapM_cons_inv in Hm as (p & ps & Hp & Hps & ->).
  apply encode_item_inv in Hp as (k & v & Hk & Hv & ->).
  destruct (encode_head _ _ _ _ Hv) as (c & r & Ev & Hc).
  assert (Ekey : key_text (fst kv) = k) by (unfold key_text; now rewrite Hk).
  destruct fuel as [|f]; [lia|]. cbn [scan_members].
  destruct kvs as [|kv2 kvs'].
  - cbn in Hps. injection Hps as <-. cbn [join] in *.
    rewrite !length_app in Hfuel.
    rewrite <- !app_assoc. rewrite Ev at 1. rewrite scan_object_key_item by exact Hc.
    rewrite <- Ev.
    rewrite (Hx _ _ _ Hv) by (try apply follow_closing; auto; lia).
    rewrite skip_ws_all by apply newline_indent_ws.
    cbn [skip_ws map]. rewrite Ekey. reflexivity.
  - destruct (mapM_cons_inv _ _ _ _ Hps) as (p2 & ps' & Hp2 & _ & ->).
    rewrite join_cons2 in *. rewrite !length_app in Hfuel.
    rewrite <- !app_assoc. rewrite Ev at 1.
    rewrite scan_object_key_item by exact Hc. rewrite <- Ev.
    rewrite (Hx _ _ _ Hv);
      [ | unfold sep; rewrite <- app_assoc; apply follow_separator | lia ].
    destruct (skip_separator indent (S level)
                (join sep (p2 :: ps')
                   ++ newline_indent indent level ++ 125 :: rest))
      as (w & Ew & Hw).
    fold sep in Ew. rewrite Ew.
    cbn [skip_ws]. change (is_ws 44) with false. cbv iota.
    change (44 =? 125) with false. change (44 =? 44) with true. cbv iota.
    rewrite skip_ws_all by exact Hw.
    apply encode_item_inv in Hp2 as (k2 & v2 & _ & _ & ->).
    unfold encode_basestring at 1.
    destruct (join_cons_head sep 34 ((flat_map escape_char k2 ++ [34])
                                       ++ key_separator ++ v2) ps'
                (newline_indent indent level ++ 125 :: rest)) as (r' & Ej).
    cbn [app] in *.
    rewrite Ej, (skip_ws_value 34 r' eq_refl), <- Ej.
    change (34 :: (flat_map escape_char k2 ++ [34]) ++ key_separator ++ v2)
      with (encode_basestring k2 ++ key_separator ++ v2).
    rewrite IH; [cbn [map]; now rewrite Ekey | exact Hps | discriminate | ].
    unfold encode_basestring in *. cbn [app length] in *. lia.
Qed.

Lemma scan_once_array f r :
  scan_once (S f) (91 :: r)
  = match skip_ws r with
    | c' :: r' =>
        if c' =? 93 then Some (PList [], r')
        else
          match scan_elements f (skip_ws r) with
          | Some (xs, rest) => Some (PList xs, rest)
          | None => None
          end
    | [] => None
    end.
Proof. reflexivity. Qed.

Lemma scan_once_object f r :
  scan_once (S f) (123 :: r)
  = match skip_ws r with
    | c' :: r' =>
        if c' =? 125 then Some (PDict [], r')
        else
          match scan_members f (skip_ws r) with
          | Some (pairs, rest) => Some (PDict (py_dict pairs), rest)
          | None => None
          end
    | [] => None
    end.
Proof. reflexivity. Qed.

Lemma scans_back_array indent level xs parts rest fuel :
  Forall scans_back xs ->
  mapM (encode indent (S level)) xs = Ok parts ->
  (length (encode_container indent level 91 93 parts) < fuel)%nat ->
  scan_once fuel (encode_container indent level 91 93 parts ++ rest)
  = Some (PList (map json_image xs), rest).
Proof.
  intros HF Hm Hfuel.
  destruct fuel as [|f]; [lia|].
  destruct parts as [|p ps].
  - apply mapM_nil_inv in Hm as ->. reflexivity.
  - assert (Hne : xs <> []) by (intros ->; discriminate).
    set (sep := item_separator indent ++ newline_indent indent (S level)).
    cbn [encode_container] in *. fold sep in Hfuel |- *.
    cbn [app]. rewrite <- !app_assoc. cbn [app].
    rewrite scan_once_array.
    rewrite skip_ws_all by apply newline_indent_ws.
    destruct xs as [|x xs']; [congruence|].
    destruct (mapM_cons_inv _ _ _ _ Hm) as (p' & ps'' & Hp & _ & E).
    injection E as <- <-.
    destruct (encode_head _ _ _ _ Hp) as (c & r & -> & Hc).
    destruct (join_cons_head sep c r ps
                (newline_indent indent level ++ 93 :: rest)) as (r' & Ej).
    rewrite Ej, (skip_ws_value _ _ Hc).
    rewrite (proj1 (value_head_not_closing _ Hc)). rewrite <- Ej.
    unfold sep. rewrite (scan_elements_join indent level _ HF _ Hm Hne).
    + reflexivity.
    + fold sep. cbn [length] in Hfuel. rewrite !length_app in Hfuel.
      cbn [length] in Hfuel. lia.
Qed.

Theorem scan_once_encode v : scans_back v.
Proof.
  induction v as [|b|z|t|b|xs IH|xs IH|kvs IH|cls attrs IH] using pyval_ind;
    intros indent level s Hs rest fuel Hf Hfuel.
  - injection Hs as <-. destruct fuel; [cbn in Hfuel; lia | reflexivity].
  - destruct b; injection Hs as <-;
      (destruct fuel; [cbn in Hfuel; lia | reflexivity]).
  - injection Hs as <-. destruct fuel; [lia|]. now apply scan_once_int.
  - injection Hs as <-. destruct fuel; [lia|].
    unfold encode_basestring. cbn [app scan_once].
    change (34 =? 34) with true. cbv iota.
    rewrite <- app_assoc. cbn [app]. now rewrite scanstring_escaped.
  - discriminate.
  - cbn [encode] in Hs.
    destruct (mapM (encode indent (S level)) xs) as [parts|] eqn:Hm;
      [|discriminate].
    injection Hs as <-. now apply scans_back_array.
  - cbn [encode] in Hs.
    destruct (mapM (encode indent (S level)) xs) as [parts|] eqn:Hm;
      [|discriminate].
    injection Hs as <-. now apply scans_back_array.
  - rewrite encode_dict_unfold in Hs.
    destruct (mapM (encode_item indent level) kvs) as [parts|] eqn:Hm;
      [|discriminate].
    injection Hs as <-.
    destruct fuel as [|f]; [lia|].
    destruct parts as [|p ps].
    + apply mapM_nil_inv in Hm as ->. reflexivity.
    + assert (Hne : kvs <> []) by (intros ->; discriminate).
      set (sep := item_separator indent ++ newline_indent indent (S level)).
      cbn [encode_container] in *. fold sep in Hfuel |- *.
      cbn [app]. rewrite <- !app_assoc. cbn [app].
      rewrite scan_once_object.
      rewrite skip_ws_all by apply newline_indent_ws.
      destruct kvs as [|kv kvs']; [congruence|].
      destruct (mapM_cons_inv _ _ _ _ Hm) as (p' & ps'' & Hp & _ & E).
      injection E as <- <-.
      apply encode_item_inv in Hp as (k & v & _ & _ & ->).
      destruct (join_cons_head sep 34
                  ((flat_map escape_char k ++ [34]) ++ key_separator ++ v)
                  ps (newline_indent indent level ++ 125 :: rest))
        as (r' & Ej).
      change (34 :: (flat_map escape_char k ++ [34]) ++ key_separator ++ v)
        with (encode_basestring k ++ key_separator ++ v) in Ej.
      rewrite Ej. change (skip_ws (34 :: r')) with (34 :: r').
      change (34 =? 125) with false. cbv iota. rewrite <- Ej.
      unfold sep.
      rewrite (scan_members_join indent level _ IH _ Hm Hne).
      * reflexivity.
      * fold sep. cbn [length] in Hfuel. rewrite !length_app in Hfuel.
        cbn [length] in Hfuel. lia.
  - discriminate.
Qed.

(** [json.loads(json.dumps(o))] is the JSON image of [o]. *)
Theorem loads_dumps indent o s :
  json_dumps indent o = Ok s -> json_loads s = Some (json_image o).
Proof.
  intros Hs. unfold json_loads.
  destruct (encode_head _ _ _ _ Hs) as (c & r & E & Hc).
  pose proof (scan_once_encode o indent 0%nat s Hs [] (S (length s))
                eq_refl (Nat.lt_succ_diag_r _)) as H.
  rewrite app_nil_r in H.
  rewrite E at 2. rewrite (skip_ws_value _ _ Hc), <- E, H.
  reflexivity.
Qed.

(** *** Dictionaries built from pairs *)

Lemma dict_set_fresh d k v :
  forallb (fun kv => negb (key_eqb (fst kv) k)) d = true ->
  dict_set d k v = d ++ [(k, v)].
Proof.
  induction d as [|[k' v'] d IH]; [reflexivity|].
  cbn [forallb fst dict_set app]. intros H.
  apply andb_prop in H as [Hk Hd].
  apply negb_true_iff in Hk. rewrite Hk. now rewrite IH.
Qed.

Lemma keys_unique_app_fresh acc k v l :
  keys_unique (acc ++ (k, v) :: l) = true ->
  forallb (fun kv => negb (key_eqb (fst kv) k)) acc = true
  /\ keys_unique ((acc ++ [(k, v)]) ++ l) = true.
Proof.
  intros H. split.
  - induction acc as [|[k' v'] acc IH]; [reflexivity|].
    cbn [app keys_unique] in H. apply andb_prop in H as [Hk Hr].
    cbn [forallb fst]. rewrite (IH Hr), andb_true_r.
    rewrite map_app, existsb_app in Hk. cbn [map fst existsb] in Hk.
    destruct (key_eqb k' k); [|reflexivity].
    now rewrite orb_true_r in Hk.
  - now rewrite <- app_assoc.
Qed.

Lemma py_dict_fold l :
  forall acc,
    keys_unique (acc ++ l) = true ->
    fold_left (fun d kv => dict_set d (fst kv) (snd kv)) l acc = acc ++ l.
Proof.
  induction l as [|[k v] l IH]; intros acc H.
  - now rewrite app_nil_r.
  - cbn [fold_left fst snd].
    apply keys_unique_app_fresh in H as [Hf Hu].
    rewrite (dict_set_fresh _ _ _ Hf), (IH _ Hu), <- app_assoc.
    reflexivity.
Qed.

Lemma py_dict_unique d : keys_unique d = true -> py_dict d = d.
Proof. intros H. unfold py_dict. now rewrite py_dict_fold. Qed.

(** *** Values that JSON expresses exactly *)

Lemma json_image_native o :
  json_native o = true -> well_formed o = true -> json_image o = o.
Proof.
  induction o as [|b|z|t|b|xs IH|xs IH|kvs IH|cls attrs IH] using pyval_ind;
    cbn [json_native well_formed json_image]; try reflexivity;
    try discriminate.
  - intros Hn Hw. f_equal.
    induction IH as [|x xs Hx _ IHxs]; [reflexivity|].
    cbn [forallb map] in *.
    apply andb_prop in Hn as [Hn1 Hn2]. apply andb_prop in Hw as [Hw1 Hw2].
    now rewrite Hx, IHxs.
  - intros Hn Hw. apply andb_prop in Hw as [Hu Hw].
    assert (E : map (fun kv => (KStr (key_text (fst kv)), json_image (snd kv)))
                  kvs = kvs).
    { clear Hu. induction IH as [|[k v] kvs Hx _ IHkvs]; [reflexivity|].
      cbn [forallb map fst snd] in *.
      apply andb_prop in Hn as [Hn1 Hn2]. apply andb_prop in Hw as [Hw1 Hw2].
      apply andb_prop in Hn1 as [Hk Hv].
      rewrite (Hx Hv Hw1), (IHkvs Hn2 Hw2).
      destruct k; try discriminate. reflexivity. }
    rewrite E. now rewrite py_dict_unique.
Qed.

Lemma pystr_eqb_refl s : pystr_eqb s s = true.
Proof.
  induction s as [|c s IH]; [reflexivity|]. cbn. now rewrite N.eqb_refl.
Qed.

(** *** Equality *)

Lemma key_eqb_refl k : key_eqb k k = true.
Proof.
  destruct k as [|b|z|s|b]; cbn; try reflexivity;
    try apply Z.eqb_refl; apply pystr_eqb_refl.
Qed.

Lemma keys_unique_lookup pre k v post :
  keys_unique (pre ++ (k, v) :: post) = true ->
  dict_lookup k (pre ++ (k, v) :: post) = Some v.
Proof.
  induction pre as [|[k' v'] pre IH]; cbn [app keys_unique dict_lookup].
  - now rewrite key_eqb_refl.
  - intros H. apply andb_prop in H as [Hk Hr].
    apply negb_true_iff in Hk.
    rewrite map_app, existsb_app in Hk. cbn [map fst existsb] in Hk.
    destruct (key_eqb k' k).
    + now rewrite orb_true_r in Hk.
    + auto.
Qed.

(** [o == o] holds for every value Python can build. *)
Lemma py_eq_refl o : well_formed o = true -> py_eq o o = true.
Proof.
  induction o as [|b|z|t|b|xs IH|xs IH|kvs IH|cls attrs IH] using pyval_ind;
    cbn [well_formed py_eq val_num]; intros Hw;
    try reflexivity; try apply Z.eqb_refl; try apply pystr_eqb_refl.
  - induction IH as [|x xs Hx _ IHxs]; [reflexivity|].
    cbn [forallb] in Hw. apply andb_prop in Hw as [H1 H2].
    now rewrite (Hx H1), (IHxs H2).
  - induction IH as [|x xs Hx _ IHxs]; [reflexivity|].
    cbn [forallb] in Hw. apply andb_prop in Hw as [H1 H2].
    now rewrite (Hx H1), (IHxs H2).
  - apply andb_prop in Hw as [Hu Hw]. rewrite Nat.eqb_refl. cbn [andb].
    assert (G : forall pre post,
               kvs = pre ++ post ->
               forallb (fun kv =>
                          match dict_lookup (fst kv) kvs with
                          | Some v' => py_eq (snd kv) v'
                          | None => false
                          end) post = true).
    { intros pre post. revert pre.
      induction post as [|[k v] post IHp]; intros pre E; [reflexivity|].
      cbn [forallb fst snd].
      assert (Hl : dict_lookup k kvs = Some v)
        by (rewrite E; apply keys_unique_lookup; now rewrite <- E).
      rewrite Hl.
      assert (Hv : py_eq v v = true).
      { rewrite Forall_forall in IH. apply (IH (k, v)).
        - rewrite E. apply in_elt.
        - rewrite forallb_forall in Hw. apply (Hw (k, v)).
          rewrite E. apply in_elt. }
      rewrite Hv. cbn [andb].
      apply (IHp (pre ++ [(k, v)])). now rewrite <- app_assoc. }
    now apply (G []).
  - rewrite pystr_eqb_refl. cbn [andb].
    induction IH as [|a attrs Ha _ IHa]; [reflexivity|].
    cbn [forallb] in Hw. apply andb_prop in Hw as [H1 H2].
    now rewrite pystr_eqb_refl, (Ha H1), (IHa H2).
Qed.

(** *** Substrings *)

Lemma starts_with_app p s : starts_with p (p ++ s) = true.
Proof.
  induction p as [|c p IH]; [reflexivity|]. cbn. now rewrite N.eqb_refl.
Qed.

Lemma str_contains_unfold needle hay :
  str_contains needle hay
  = starts_with needle hay
    || match hay with
       | [] => false
       | _ :: hay' => str_contains needle hay'
       end.
Proof. destruct hay; reflexivity. Qed.

Lemma str_contains_prefix needle s : str_contains needle (needle ++ s) = true.
Proof. now rewrite str_contains_unfold, starts_with_app. Qed.

Lemma str_contains_app pre needle s :
  str_contains needle (pre ++ needle ++ s) = true.
Proof.
  induction pre as [|c pre IH]; [cbn [app]; apply str_contains_prefix|].
  cbn [app str_contains]. rewrite IH. apply orb_true_r.
Qed.

Lemma str_contains_suffix pre needle :
  str_contains needle (pre ++ needle) = true.
Proof.
  pose proof (str_contains_app pre needle []) as H.
  now rewrite app_nil_r in H.
Qed.

(** *** Timestamps *)

Lemma all_from_spec fuel :
  forall n f, all_from fuel n f = true ->
  forall m, n <= m -> m < n + N.of_nat fuel -> f m = true.
Proof.
  induction fuel as [|k IH]; intros n f H m Hle Hlt; [lia|].
  cbn [all_from] in H. destruct (f n) eqn:Hn; [|discriminate].
  destruct (N.eq_dec m n) as [->|Hne]; [exact Hn|].
  apply (IH (N.succ n) f H); lia.
Qed.

Lemma repr_fits_2 n : n < 100 -> repr_fits 2 n = true.
Proof.
  intros H.
  apply (all_from_spec 100 0 (repr_fits 2)); [vm_compute; reflexivity| |]; lia.
Qed.

Lemma repr_fits_4 n : n < 10000 -> repr_fits 4 n = true.
Proof.
  intros H.
  apply (all_from_spec (N.to_nat 10000) 0 (repr_fits 4));
    [vm_compute; reflexivity| |]; lia.
Qed.

Lemma repr_fits_6 n : n < 1000000 -> repr_fits 6 n = true.
Proof.
  intros H.
  apply (all_from_spec (N.to_nat 1000000) 0 (repr_fits 6));
    [vm_compute; reflexivity| |]; lia.
Qed.

Lemma uint_chars_zeros k d :
  uint_chars (zeros k d) = repeat 48 k ++ uint_chars d.
Proof. induction k as [|k IH]; [reflexivity|]. cbn. now rewrite IH. Qed.

Lemma of_uint_zeros k d : N.of_uint (zeros k d) = N.of_uint d.
Proof. induction k as [|k IH]; [reflexivity | exact IH]. Qed.

Lemma read_digits_uint d rest :
  read_digits (length (uint_chars d)) (uint_chars d ++ rest) = Some (d, rest).
Proof.
  induction d as [|d IH|d IH|d IH|d IH|d IH|d IH|d IH|d IH|d IH|d IH];
    try reflexivity;
    cbn [uint_chars length app read_digits]; change (is_digit _) with true;
    cbv iota; rewrite IH; reflexivity.
Qed.

Lemma read_field_pad w n rest :
  repr_fits w n = true ->
  read_field w (pad w n ++ rest) = Some (n, rest).
Proof.
  unfold repr_fits, pad, nat_repr, read_field. intros H.
  apply Nat.leb_le in H.
  rewrite <- uint_chars_zeros.
  replace w with (length (uint_chars (zeros (w - length (uint_chars (N.to_uint n)))
                                        (N.to_uint n)))) at 1
    by (rewrite uint_chars_zeros, length_app, repeat_length; lia).
  rewrite read_digits_uint, of_uint_zeros, DecimalN.Unsigned.of_to.
  reflexivity.
Qed.

Lemma valid_datetime_bounds d :
  valid_datetime d = true ->
  year d < 10000 /\ month d < 100 /\ day d < 100 /\ hour d < 100
  /\ minute d < 100 /\ second d < 100 /\ microsecond d < 1000000.
Proof.
  unfold valid_datetime. intros H.
  repeat (apply andb_prop in H as [H ?]).
  repeat match goal with
         | H : (_ <=? _) = true |- _ => apply N.leb_le in H
         | H : (_ <? _) = true |- _ => apply N.ltb_lt in H
         end.
  repeat split; lia.
Qed.

(** The timestamp the handler writes reads back, as an ISO-8601 UTC
    timestamp, to the clock reading it was made from. *)
Lemma parse_isoformat_Z d :
  valid_datetime d = true ->
  parse_iso8601_utc (isoformat d ++ u "Z") = Some d.
Proof.
  intros Hv.
  destruct (valid_datetime_bounds d Hv) as (Hy & Hmo & Hd & Hh & Hmi & Hs & Hus).
  unfold parse_iso8601_utc, isoformat.
  change (u "-") with [45]. change (u "T") with [84].
  change (u ":") with [58]. change (u ".") with [46]. change (u "Z") with [90].
  repeat rewrite <- app_assoc.
  rewrite read_field_pad by now apply repr_fits_4.
  cbn [obind app expect]. change (45 =? 45) with true. cbv iota. cbn [obind].
  rewrite read_field_pad by now apply repr_fits_2.
  cbn [obind app expect]. change (45 =? 45) with true. cbv iota. cbn [obind].
  rewrite read_field_pad by now apply repr_fits_2.
  cbn [obind app expect]. change (84 =? 84) with true. cbv iota. cbn [obind].
  rewrite read_field_pad by now apply repr_fits_2.
  cbn [obind app expect]. change (58 =? 58) with true. cbv iota. cbn [obind].
  rewrite read_field_pad by now apply repr_fits_2.
  cbn [obind app expect]. change (58 =? 58) with true. cbv iota. cbn [obind].
  rewrite read_field_pad by now apply repr_fits_2.
  cbn [obind].
  destruct (N.eqb_spec (microsecond d) 0) as [E0|Hn0].
  - cbn [app expect]. change (90 =? 46) with false. cbv iota.
    cbn [obind]. rewrite <- E0.
    destruct d as [y mo dd h mi se us]. cbn in *.
    now rewrite Hv.
  - repeat rewrite <- app_assoc. cbn [app expect].
    change (46 =? 46) with true. cbv iota.
    rewrite read_field_pad by now apply repr_fits_6.
    cbn [obind].
    destruct d as [y mo dd h mi se us]. cbn in *.
    now rewrite Hv.
Qed.

Lemma isoformat_ends_with_Z d : last (isoformat d ++ u "Z") 0 = 90.
Proof. change (u "Z") with [90]. apply last_last. Qed.

Section HandlerFacts.

Variable version_info : N * N * N.
Variable clock : nat -> datetime.
Variable sink : log_record -> option exn.
Variable repr_other : pyval -> pystr.

Let handler := lambda_handler version_info clock sink repr_other.
Let body_of_try := try_body version_info clock sink repr_other.
Let on_error := except_block clock sink.

Lemma try_body_cases event context w :
  body_of_try event context w
  = match sink start_record with
    | Some e => (Raise e, w)
    | None =>
    match json_dumps None event with
    | Raise e => (Raise e, after_log w [start_record] (w_ticks w))
    | Ok dumped =>
    match sink (event_record dumped) with
    | Some e => (Raise e, after_log w [start_record] (w_ticks w))
    | None =>
    let w2 := after_log w [start_record; event_record dumped]
                (S (w_ticks w)) in
    match payload_of version_info repr_other event context (clock (w_ticks w)) with
    | Raise e => (Raise e, w2)
    | Ok data =>
    match json_dumps (Some 2%nat) data with
    | Raise e => (Raise e, w2)
    | Ok body =>
    match sink done_record with
    | Some e => (Raise e, w2)
    | None =>
        (Ok (envelope 200 success_headers body),
         after_log w [start_record; event_record dumped; done_record]
           (S (w_ticks w)))
    end end end end end end.
Proof.
  unfold body_of_try, try_body, payload_of, bind, lift, ret, logger_info,
    emit, utcnow, after_log.
  fold start_record. fold done_record.
  destruct (sink start_record); [reflexivity|].
  destruct (json_dumps None event) as [dumped|]; [|reflexivity].
  fold (event_record dumped).
  destruct (sink (event_record dumped)); [reflexivity|].
  cbn [w_log w_ticks]. rewrite <- !app_assoc. cbn [app].
  destruct (py_get event (KStr (u "message")) (PStr default_message))
    as [im|]; [|reflexivity].
  destruct (py_get event (KStr (u "test")) (PStr (u "default")))
    as [tp|]; [|reflexivity].
  cbn [rbind].
  destruct (json_dumps (Some 2%nat) _) as [body|]; [|reflexivity].
  destruct (sink done_record); reflexivity.
Qed.

Lemma try_body_ok_inv event context w env w' :
  body_of_try event context w = (Ok env, w') ->
  exists dumped data body,
    json_dumps None event = Ok dumped
    /\ payload_of version_info repr_other event context (clock (w_ticks w)) = Ok data
    /\ json_dumps (Some 2%nat) data = Ok body
    /\ env = envelope 200 success_headers body
    /\ w' = after_log w [start_record; event_record dumped; done_record]
              (S (w_ticks w)).
Proof.
  rewrite try_body_cases.
  destruct (sink start_record); [discriminate|].
  destruct (json_dumps None event) as [dumped|] eqn:Hd; [|discriminate].
  destruct (sink (event_record dumped)); [discriminate|].
  cbv zeta.
  destruct (payload_of version_info repr_other event context (clock (w_ticks w))) as [data|] eqn:Hp;
    [|discriminate].
  destruct (json_dumps (Some 2%nat) data) as [body|] eqn:Hb; [|discriminate].
  destruct (sink done_record); [discriminate|].
  intros [= <- <-]. exists dumped, data, body. auto.
Qed.

Lemma try_body_raise_ticks event context w e w1 :
  body_of_try event context w = (Raise e, w1) ->
  (w_ticks w <= w_ticks w1)%nat.
Proof.
  rewrite try_body_cases. unfold after_log.
  destruct (sink start_record); [intros [= _ <-]; lia|].
  destruct (json_dumps None event) as [dumped|];
    [|intros [= _ <-]; cbn [w_ticks]; lia].
  destruct (sink (event_record dumped));
    [intros [= _ <-]; cbn [w_ticks]; lia|].
  cbv zeta.
  destruct (payload_of version_info repr_other event context (clock (w_ticks w))) as [data|];
    [|intros [= _ <-]; cbn [w_ticks]; lia].
  destruct (json_dumps (Some 2%nat) data) as [body|];
    [|intros [= _ <-]; cbn [w_ticks]; lia].
  destruct (sink done_record);
    [intros [= _ <-]; cbn [w_ticks]; lia | discriminate].
Qed.

(** The error payload holds only strings: serialising it cannot fail. *)
Lemma error_data_serialises e ts :
  json_dumps (Some 2%nat) (error_data e ts) = Ok (error_body e ts).
Proof. reflexivity. Qed.

Lemma except_block_spec e w1 :
  on_error e w1
  = match sink (error_record e) with
    | Some e' => (Raise e', w1)
    | None =>
        (Ok (envelope 500 error_headers
               (error_body e (isoformat (clock (w_ticks w1)) ++ u "Z"))),
         after_log w1 [error_record e] (S (w_ticks w1)))
    end.
Proof.
  unfold on_error, except_block, bind, lift, ret, logger_error, emit, utcnow.
  fold (error_record e).
  destruct (sink (error_record e)); [reflexivity|].
  cbn [w_log w_ticks]. rewrite error_data_serialises. reflexivity.
Qed.

Lemma handler_unfold event context w :
  handler event context w
  = match body_of_try event context w with
    | (Ok env, w') => (Ok env, w')
    | (Raise e, w1) => on_error e w1
    end.
Proof. reflexivity. Qed.

Lemma status_code_envelope code headers body :
  status_code (envelope code headers body) = Some (PInt code).
Proof. reflexivity. Qed.

Lemma body_json_envelope code headers body :
  body_json (envelope code headers body) = json_loads body.
Proof. reflexivity. Qed.

Lemma handler_ok_200 event context w env w' :
  handler event context w = (Ok env, w') ->
  status_code env = Some (PInt 200) ->
  body_of_try event context w = (Ok env, w').
Proof.
  rewrite handler_unfold.
  destruct (body_of_try event context w) as [[env0|e] w1]; [easy|].
  rewrite except_block_spec.
  destruct (sink (error_record e)); [discriminate|].
  intros [= <- <-]. rewrite status_code_envelope. discriminate.
Qed.

Lemma json_image_response_data event rid ts im tp :
  json_image (response_data version_info repr_other event rid ts im tp)
  = PDict
      [ (KStr (u "message"),
          PStr (message_prefix ++ py_format repr_other im));
        (KStr (u "timestamp"), PStr ts);
        (KStr (u "request_id"), json_image rid);
        (KStr (u "python_version"), PStr (get_python_version version_info));
        (KStr (u "input_event"), json_image event);
        (KStr (u "processed_by"), PStr (u "Python闘魂エンジン"));
        (KStr (u "status"), PStr (u "VICTORY!"));
        (KStr (u "toukon_power"), PStr (u "MAX"));
        (KStr (u "test_param"), json_image tp) ].
Proof. reflexivity. Qed.

(** Everything the success path fixes. *)
Lemma success_path event context w env w' :
  handler event context w = (Ok env, w') ->
  status_code env = Some (PInt 200) ->
  exists dumped im tp body,
    json_dumps None event = Ok dumped
    /\ py_get event (KStr (u "message")) (PStr default_message) = Ok im
    /\ py_get event (KStr (u "test")) (PStr (u "default")) = Ok tp
    /\ json_dumps (Some 2%nat)
         (response_data version_info repr_other event
            (request_id_of context) (isoformat (clock (w_ticks w)) ++ u "Z")
            im tp) = Ok body
    /\ env = envelope 200 success_headers body
    /\ body_json env
       = Some (json_image
                 (response_data version_info repr_other event
                    (request_id_of context)
                    (isoformat (clock (w_ticks w)) ++ u "Z") im tp))
    /\ w' = after_log w [start_record; event_record dumped; done_record]
              (S (w_ticks w)).
Proof.
  intros Hh Hs.
  apply (handler_ok_200 _ _ _ _ _ Hh) in Hs.
  apply try_body_ok_inv in Hs
    as (dumped & data & body & Hd & Hp & Hb & -> & ->).
  unfold payload_of in Hp.
  destruct (py_get event (KStr (u "message")) (PStr default_message))
    as [im|]; [|discriminate].
  destruct (py_get event (KStr (u "test")) (PStr (u "default")))
    as [tp|]; [|discriminate].
  cbn [rbind] in Hp. injection Hp as <-.
  exists dumped, im, tp, body. repeat split; try assumption.
  rewrite body_json_envelope. now apply (loads_dumps (Some 2%nat)).
Qed.

(** [dict.get] on the success path. *)
Lemma py_get_ok_item event key default v :
  py_get event (KStr key) default = Ok v ->
  v = match item event key with
      | Some x => x
      | None => default
      end.
Proof.
  destruct event as [| | | | | | |d|cls attrs]; cbn [py_get item];
    try discriminate.
  - destruct (dict_lookup (KStr key) d); now intros [= <-].
  - destruct (attr_lookup (u "get") attrs); discriminate.
Qed.

(** C1 (amended): on the success path the [request_id] field of the
    body is the JSON image of the request id, which is ["local"] when
    the context is falsy ([None], but also an empty or zero value), the
    context's [aws_request_id] attribute when the context is truthy and
    has it, and ["unknown"] when the context is truthy and lacks it. *)
Theorem C1_request_id event context w env w' :
  handler event context w = (Ok env, w') ->
  status_code env = Some (PInt 200) ->
  (exists body,
      body_json env = Some body
      /\ item body (u "request_id")
         = Some (json_image (request_id_of context)))
  /\ (py_truthy context = false ->
      request_id_of context = PStr (u "local"))
  /\ (forall v,
         py_truthy context = true ->
         attr_of context (u "aws_request_id") = Some v ->
         request_id_of context = v)
  /\ (py_truthy context = true ->
      attr_of context (u "aws_request_id") = None ->
      request_id_of context = PStr (u "unknown")).
Proof.
  intros Hh Hs.
  destruct (success_path _ _ _ _ _ Hh Hs)
    as (dumped & im & tp & body & _ & _ & _ & _ & _ & Hj & _).
  split; [|split; [|split]].
  - eexists. split; [exact Hj|]. now rewrite json_image_response_data.
  - unfold request_id_of. now intros ->.
  - unfold request_id_of. intros v -> Ha.
    destruct context; cbn [attr_of] in Ha; try discriminate.
    cbn [py_getattr]. now rewrite Ha.
  - unfold request_id_of. intros -> Ha.
    destruct context; cbn [attr_of] in Ha; try reflexivity.
    cbn [py_getattr]. now rewrite Ha.
Qed.

(** C2 (amended): the handler returns status 200 exactly when no step
    of the [try] body raises; when a step raises it returns status 500,
    provided the logging call of the [except] block does not itself
    raise; when that call raises, its exception reaches the caller. *)
Theorem C2_status_code event context w :
  ((exists env w',
       handler event context w = (Ok env, w')
       /\ status_code env = Some (PInt 200))
   <-> (exists env w', body_of_try event context w = (Ok env, w')))
  /\ (forall e w1,
         body_of_try event context w = (Raise e, w1) ->
         sink (error_record e) = None ->
         exists env w',
           handler event context w = (Ok env, w')
           /\ status_code env = Some (PInt 500))
  /\ (forall e w1 e',
         body_of_try event context w = (Raise e, w1) ->
         sink (error_record e) = Some e' ->
         handler event context w = (Raise e', w1)).
Proof.
  split; [split|split].
  - intros (env & w' & Hh & Hs). exists env, w'.
    now apply handler_ok_200.
  - intros (env & w' & Hb). exists env, w'.
    rewrite handler_unfold, Hb. split; [reflexivity|].
    apply try_body_ok_inv in Hb as (? & ? & ? & _ & _ & _ & -> & _).
    reflexivity.
  - intros e w1 Hb Hlog.
    rewrite handler_unfold, Hb, except_block_spec, Hlog.
    eexists _, _. split; reflexivity.
  - intros e w1 e' Hb Hlog.
    now rewrite handler_unfold, Hb, except_block_spec, Hlog.
Qed.

(** C3: when logging the caught exception does not fail, the handler
    returns a well-formed envelope for every event, context and world;
    the serialisation of the error payload never fails (see
    [error_data_serialises]). *)
Theorem C3_always_an_envelope event context w :
  (forall e w1,
      body_of_try event context w = (Raise e, w1) ->
      sink (error_record e) = None) ->
  exists env w',
    handler event context w = (Ok env, w')
    /\ well_formed_envelope env = true.
Proof.
  intros Hlog. rewrite handler_unfold.
  destruct (body_of_try event context w) as [[env|e] w1] eqn:Hb.
  - exists env, w1. split; [reflexivity|].
    apply try_body_ok_inv in Hb as (? & ? & ? & _ & _ & _ & -> & _).
    reflexivity.
  - rewrite except_block_spec, (Hlog e w1 eq_refl).
    eexists _, _. split; reflexivity.
Qed.

Lemma lookup_native k d v :
  dict_lookup k d = Some v ->
  forallb (fun kv => is_str_key (fst kv) && json_native (snd kv)) d = true ->
  json_native v = true.
Proof.
  induction d as [|[k' v'] d IH]; [discriminate|].
  cbn [dict_lookup forallb fst snd]. intros Hl Hn.
  apply andb_prop in Hn as [Hkv Hd]. apply andb_prop in Hkv as [_ Hv].
  destruct (key_eqb k' k); [now injection Hl as <- | auto].
Qed.

Lemma lookup_well_formed k d v :
  dict_lookup k d = Some v ->
  forallb (fun kv => well_formed (snd kv)) d = true ->
  well_formed v = true.
Proof.
  induction d as [|[k' v'] d IH]; [discriminate|].
  cbn [dict_lookup forallb fst snd]. intros Hl Hn.
  apply andb_prop in Hn as [Hv Hd].
  destruct (key_eqb k' k); [now injection Hl as <- | auto].
Qed.

Lemma py_get_native event key s v :
  py_get event (KStr key) (PStr s) = Ok v ->
  json_native event = true -> well_formed event = true ->
  json_native v = true /\ well_formed v = true.
Proof.
  destruct event as [| | | | | | |d|cls attrs];
    cbn [py_get json_native well_formed]; try discriminate.
  intros Hg Hn Hw. apply andb_prop in Hw as [_ Hw].
  destruct (dict_lookup (KStr key) d) as [x|] eqn:Hl; injection Hg as <-.
  - split; [eapply lookup_native | eapply lookup_well_formed]; eassumption.
  - split; reflexivity.
Qed.

(** The body always parses to the JSON image of the payload. *)
Lemma body_is_json_image event context w env w' :
  handler event context w = (Ok env, w') ->
  status_code env = Some (PInt 200) ->
  exists data,
    payload_of version_info repr_other event context (clock (w_ticks w)) = Ok data
    /\ body_json env = Some (json_image data).
Proof.
  intros Hh Hs.
  destruct (success_path _ _ _ _ _ Hh Hs)
    as (dumped & im & tp & body & _ & Him & Htp & _ & _ & Hj & _).
  eexists. split; [|exact Hj].
  unfold payload_of. now rewrite Him, Htp.
Qed.

Lemma well_formed_response_data event rid ts im tp :
  well_formed rid = true -> well_formed event = true ->
  well_formed tp = true ->
  well_formed (response_data version_info repr_other event rid ts im tp)
  = true.
Proof.
  intros Hr He Ht. unfold response_data.
  cbn [well_formed forallb snd]. rewrite Hr, He, Ht. reflexivity.
Qed.

(** C4 (amended): on the success path, when the event and the request
    id are built only from [None], booleans, integers, strings, lists
    and dicts with string keys, parsing the body gives back the payload
    mapping that was constructed: the same value, equal under [==].
    (In general it gives the payload's JSON image, [body_is_json_image].) *)
Theorem C4_body_round_trip event context w env w' :
  handler event context w = (Ok env, w') ->
  status_code env = Some (PInt 200) ->
  json_native event = true -> well_formed event = true ->
  json_native (request_id_of context) = true ->
  well_formed (request_id_of context) = true ->
  exists data parsed,
    payload_of version_info repr_other event context (clock (w_ticks w))
    = Ok data
    /\ body_json env = Some parsed
    /\ parsed = data
    /\ py_eq parsed data = true.
Proof.
  intros Hh Hs Hne Hwe Hnr Hwr.
  destruct (success_path _ _ _ _ _ Hh Hs)
    as (dumped & im & tp & body & _ & Him & Htp & _ & _ & Hj & _).
  destruct (py_get_native _ _ _ _ Htp Hne Hwe) as [Hnt Hwt].
  eexists _, _. split; [unfold payload_of; now rewrite Him, Htp|].
  split; [exact Hj|].
  assert (E : json_image
                (response_data version_info repr_other event
                   (request_id_of context)
                   (isoformat (clock (w_ticks w)) ++ u "Z") im tp)
              = response_data version_info repr_other event
                  (request_id_of context)
                  (isoformat (clock (w_ticks w)) ++ u "Z") im tp).
  { rewrite json_image_response_data.
    now rewrite !json_image_native by assumption. }
  split; [exact E|]. rewrite E.
  apply py_eq_refl. now apply well_formed_response_data.
Qed.

(** C5: when the [try] body raises [e] and the handler returns an
    envelope (the exception was caught and logged), the envelope has
    status 500, exactly the headers [Content-Type] and
    [X-Toukon-Error: True], and a body whose JSON fields are [error],
    [message] (which is [str(e)]), [timestamp] and [status] = ["ERROR"]. *)
Theorem C5_error_envelope event context w e w1 env w' :
  body_of_try event context w = (Raise e, w1) ->
  handler event context w = (Ok env, w') ->
  status_code env = Some (PInt 500)
  /\ headers_of env
     = Some (PDict
               [ (KStr (u "Content-Type"),
                   PStr (u "application/json; charset=utf-8"));
                 (KStr (u "X-Toukon-Error"), PStr (u "True")) ])
  /\ exists ts,
      body_json env
      = Some (PDict
                [ (KStr (u "error"),
                    PStr (u "闘魂処理でエラーが発生しました"));
                  (KStr (u "message"), PStr (py_str_exn e));
                  (KStr (u "timestamp"), PStr ts);
                  (KStr (u "status"), PStr (u "ERROR")) ]).
Proof.
  intros Hb Hh.
  rewrite handler_unfold, Hb, except_block_spec in Hh.
  destruct (sink (error_record e)); [discriminate|].
  injection Hh as <- <-.
  split; [reflexivity|]. split; [reflexivity|].
  eexists. rewrite body_json_envelope.
  rewrite (loads_dumps _ _ _ (error_data_serialises e _)).
  reflexivity.
Qed.

(** C6 (amended): on the success path the [input_event] entry of the
    payload is the event itself, the [input_event] field read back from
    the body is the event's JSON image (the event itself, equal under
    [==], when the event is built from JSON-native values), and the
    invocation changes nothing but the log and the clock: it only reads
    the event. *)
Theorem C6_input_event_echo event context w env w' :
  handler event context w = (Ok env, w') ->
  status_code env = Some (PInt 200) ->
  exists data body dumped,
    payload_of version_info repr_other event context (clock (w_ticks w))
    = Ok data
    /\ item data (u "input_event") = Some event
    /\ body_json env = Some body
    /\ item body (u "input_event") = Some (json_image event)
    /\ (json_native event = true -> well_formed event = true ->
        json_image event = event /\ py_eq (json_image event) event = true)
    /\ w' = after_log w [start_record; event_record dumped; done_record]
              (S (w_ticks w)).
Proof.
  intros Hh Hs.
  destruct (success_path _ _ _ _ _ Hh Hs)
    as (dumped & im & tp & body & _ & Him & Htp & _ & _ & Hj & Hw).
  eexists _, _, dumped.
  split; [unfold payload_of; now rewrite Him, Htp|].
  split; [reflexivity|]. split; [exact Hj|].
  rewrite json_image_response_data.
  split; [reflexivity|]. split; [|exact Hw].
  intros Hn Hwf. rewrite (json_image_native event Hn Hwf).
  split; [reflexivity | now apply py_eq_refl].
Qed.

(** C7: on the success path the [message] field of the body is the
    fixed prefix followed by what the event's [message] formats to (the
    default greeting when the key is missing); so it contains the default
    greeting when the event has no [message] key, and contains [m] when
    the event's [message] is the string [m]. *)
Theorem C7_message_field event context w env w' :
  handler event context w = (Ok env, w') ->
  status_code env = Some (PInt 200) ->
  exists body msg,
    body_json env = Some body
    /\ item body (u "message") = Some (PStr msg)
    /\ msg = message_prefix
             ++ py_format repr_other
                  match item event (u "message") with
                  | Some m => m
                  | None => PStr default_message
                  end
    /\ (item event (u "message") = None ->
        str_contains default_message msg = true)
    /\ (forall m,
           item event (u "message") = Some (PStr m) ->
           str_contains m msg = true).
Proof.
  intros Hh Hs.
  destruct (success_path _ _ _ _ _ Hh Hs)
    as (dumped & im & tp & body & _ & Him & _ & _ & _ & Hj & _).
  apply py_get_ok_item in Him.
  eexists _, _. split; [exact Hj|].
  rewrite json_image_response_data. split; [reflexivity|].
  split; [now rewrite Him|]. split.
  - intros Hnone. rewrite Hnone in Him. subst im. cbn [py_format].
    apply str_contains_suffix.
  - intros m Hm. rewrite Hm in Him. subst im. cbn [py_format].
    apply str_contains_suffix.
Qed.

(** C8: on the success path the envelope has status 200, exactly the
    headers [Content-Type], [X-Toukon-Power: MAX] and
    [X-Python-Engine: True], and a body whose JSON fields are exactly
    [message], [timestamp], [request_id], [python_version],
    [input_event], [processed_by], [status] = ["VICTORY!"],
    [toukon_power] = ["MAX"] and [test_param]. *)
Theorem C8_success_envelope event context w env w' :
  handler event context w = (Ok env, w') ->
  status_code env = Some (PInt 200) ->
  headers_of env
  = Some (PDict
            [ (KStr (u "Content-Type"),
                PStr (u "application/json; charset=utf-8"));
              (KStr (u "X-Toukon-Power"), PStr (u "MAX"));
              (KStr (u "X-Python-Engine"), PStr (u "True")) ])
  /\ exists msg ts rid ie tp,
      body_json env
      = Some (PDict
                [ (KStr (u "message"), PStr msg);
                  (KStr (u "timestamp"), PStr ts);
                  (KStr (u "request_id"), rid);
                  (KStr (u "python_version"),
                    PStr (get_python_version version_info));
                  (KStr (u "input_event"), ie);
                  (KStr (u "processed_by"), PStr (u "Python闘魂エンジン"));
                  (KStr (u "status"), PStr (u "VICTORY!"));
                  (KStr (u "toukon_power"), PStr (u "MAX"));
                  (KStr (u "test_param"), tp) ]).
Proof.
  intros Hh Hs.
  destruct (success_path _ _ _ _ _ Hh Hs)
    as (dumped & im & tp & body & _ & _ & _ & _ & -> & Hj & _).
  split; [reflexivity|].
  rewrite json_image_response_data in Hj. eauto 6.
Qed.

(** C9: on both paths the [timestamp] field of the body is the clock
    reading taken last during the invocation, in ISO-8601 format with
    the suffix [Z]; it parses back, as an ISO-8601 UTC timestamp, to
    that reading. *)
Theorem C9_timestamp event context w env w' :
  handler event context w = (Ok env, w') ->
  (forall n, valid_datetime (clock n) = true) ->
  exists body ts t,
    body_json env = Some body
    /\ item body (u "timestamp") = Some (PStr ts)
    /\ (w_ticks w <= t)%nat /\ w_ticks w' = S t
    /\ ts = isoformat (clock t) ++ u "Z"
    /\ last ts 0 = 90
    /\ parse_iso8601_utc ts = Some (clock t).
Proof.
  intros Hh Hvalid. rewrite handler_unfold in Hh.
  destruct (body_of_try event context w) as [[env0|e] w1] eqn:Hb.
  - injection Hh as <- <-.
    pose proof Hb as Hb'.
    apply try_body_ok_inv in Hb'
      as (dumped & data & body & _ & Hp & Hd & -> & ->).
    unfold payload_of in Hp.
    destruct (py_get event (KStr (u "message")) _) as [im|]; [|discriminate].
    destruct (py_get event (KStr (u "test")) _) as [tp|]; [|discriminate].
    cbn [rbind] in Hp. injection Hp as <-.
    eexists _, _, (w_ticks w). rewrite body_json_envelope.
    rewrite (loads_dumps _ _ _ Hd), json_image_response_data.
    repeat split; try reflexivity.
    + apply isoformat_ends_with_Z.
    + now apply parse_isoformat_Z.
  - rewrite except_block_spec in Hh.
    destruct (sink (error_record e)); [discriminate|].
    injection Hh as <- <-.
    eexists _, _, (w_ticks w1). rewrite body_json_envelope.
    rewrite (loads_dumps _ _ _ (error_data_serialises e _)).
    repeat split; try reflexivity.
    + now apply try_body_raise_ticks in Hb.
    + apply isoformat_ends_with_Z.
    + now apply parse_isoformat_Z.
Qed.

End HandlerFacts.

Lemma except_block_agree clock1 sink1 clock2 sink2 e wa wb :
  (forall r, sink1 r = sink2 r) ->
  clock1 (w_ticks wa) = clock2 (w_ticks wb) ->
  fst (except_block clock1 sink1 e wa) = fst (except_block clock2 sink2 e wb).
Proof.
  intros Hs Hc. rewrite !except_block_spec, <- Hs.
  destruct (sink1 (error_record e)); [reflexivity|].
  cbn [fst]. now rewrite Hc.
Qed.

(** C10 (amended): the outcome of an invocation is determined by the
    event, the context, the interpreter version, the readings of the
    clock and the behaviour of the logger: for an event and a request
    id within the limits of the interpreter, two invocations whose
    loggers treat every record alike and whose clocks give the same two
    readings return the same envelope (or raise the same exception),
    whatever the log written so far, the position of the clock and the
    readings the clocks give at other times.  [encode] has no limits,
    so the proof does not use the two bounds: they keep the statement
    to the values on which the outcome does not depend on how the host
    has set the limits. *)
Theorem C10_deterministic version_info repr_other clock1 sink1 clock2 sink2
    event context w1 w2 :
  within_limits event = true ->
  within_limits (request_id_of context) = true ->
  (forall r, sink1 r = sink2 r) ->
  clock1 (w_ticks w1) = clock2 (w_ticks w2) ->
  clock1 (S (w_ticks w1)) = clock2 (S (w_ticks w2)) ->
  fst (lambda_handler version_info clock1 sink1 repr_other event context w1)
  = fst (lambda_handler version_info clock2 sink2 repr_other event context w2).
Proof.
  intros _ _ Hs H0 H1.
  rewrite !handler_unfold, !try_body_cases, <- H0, <- (Hs start_record),
    <- (Hs done_record).
  unfold after_log.
  destruct (sink1 start_record); [now apply except_block_agree|].
  destruct (json_dumps None event) as [dumped|];
    [|now apply except_block_agree].
  rewrite <- (Hs (event_record dumped)).
  destruct (sink1 (event_record dumped)); [now apply except_block_agree|].
  cbv zeta.
  destruct (payload_of version_info repr_other event context
              (clock1 (w_ticks w1))) as [data|];
    [|now apply except_block_agree].
  destruct (json_dumps (Some 2%nat) data) as [body|];
    [|now apply except_block_agree].
  destruct (sink1 done_record); [now apply except_block_agree | reflexivity].
Qed.

(** C1 as stated fails for a context that is not [None] but falsy: with
    the empty dict as context (no [aws_request_id] attribute) the
    [request_id] of the body is ["local"], not ["unknown"]. *)
Lemma C1_falsy_context_counterexample :
  let context := PDict [] in
  let env := returned (sample_handler test_event context world0) in
  context <> PNone
  /\ attr_of context (u "aws_request_id") = None
  /\ sample_handler test_event context world0
     = (Ok env, snd (sample_handler test_event context world0))
  /\ status_code env = Some (PInt 200)
  /\ exists body,
      body_json env = Some body
      /\ item body (u "request_id") = Some (PStr (u "local"))
      /\ item body (u "request_id") <> Some (PStr (u "unknown")).
Proof.
  cbv zeta. split; [discriminate|]. split; [reflexivity|].
  split; [vm_compute; reflexivity|]. split; [vm_compute; reflexivity|].
  eexists. split; [vm_compute; reflexivity|].
  split; [vm_compute; reflexivity | vm_compute; discriminate].
Qed.

(** C1 at the event of the source's [__main__] block, context [None]. *)
Lemma C1_request_id_witness :
  let env := returned (sample_handler test_event PNone world0) in
  sample_handler test_event PNone world0
  = (Ok env, snd (sample_handler test_event PNone world0))
  /\ status_code env = Some (PInt 200)
  /\ exists body,
      body_json env = Some body
      /\ item body (u "request_id") = Some (PStr (u "local")).
Proof.
  cbv zeta.
  assert (H1 : sample_handler test_event PNone world0
               = (Ok (returned (sample_handler test_event PNone world0)),
                  snd (sample_handler test_event PNone world0)))
    by (vm_compute; reflexivity).
  assert (H2 : status_code (returned (sample_handler test_event PNone world0))
               = Some (PInt 200)) by (vm_compute; reflexivity).
  split; [exact H1|]. split; [exact H2|].
  destruct (C1_request_id sample_version sample_clock quiet_sink sample_repr
              test_event PNone world0 _ _ H1 H2) as ((body & Hb & Hi) & _).
  exists body. split; [exact Hb | exact Hi].
Defined.

(** C2 as stated fails when the log handlers raise on the error record:
    for an event holding bytes the [try] body raises, and the handler
    raises the logging error instead of returning status 500. *)
Lemma C2_logging_failure_counterexample :
  (exists e w1,
      try_body sample_version sample_clock failing_error_sink sample_repr
        bytes_event PNone world0 = (Raise e, w1))
  /\ fst (fragile_handler bytes_event PNone world0)
     = Raise (mkExn OSError (u "log stream closed"))
  /\ forall env w',
      fragile_handler bytes_event PNone world0 <> (Ok env, w').
Proof.
  split; [eexists _, _; vm_compute; reflexivity|].
  split; [vm_compute; reflexivity|].
  intros env w' H. apply (f_equal fst) in H. vm_compute in H. discriminate.
Qed.

(** C2 at the event of the source's [__main__] block (status 200) and
    at an event holding bytes (status 500), with a log that accepts every
    record. *)
Lemma C2_status_code_witness :
  (exists env w',
      sample_handler test_event PNone world0 = (Ok env, w')
      /\ status_code env = Some (PInt 200))
  /\ (exists env w',
         sample_handler bytes_event PNone world0 = (Ok env, w')
         /\ status_code env = Some (PInt 500)).
Proof.
  split.
  - apply (proj1 (C2_status_code sample_version sample_clock quiet_sink
                    sample_repr test_event PNone world0)).
    eexists _, _. vm_compute. reflexivity.
  - eapply (proj1 (proj2 (C2_status_code sample_version sample_clock
                            quiet_sink sample_repr bytes_event PNone world0))).
    + vm_compute. reflexivity.
    + reflexivity.
Defined.

(** C3 at an event holding bytes and an empty dict as context. *)
Lemma C3_always_an_envelope_witness :
  exists env w',
    sample_handler bytes_event (PDict []) world0 = (Ok env, w')
    /\ well_formed_envelope env = true.
Proof.
  apply (C3_always_an_envelope sample_version sample_clock quiet_sink
           sample_repr bytes_event (PDict []) world0).
  intros e w1 _. reflexivity.
Defined.

(** C4 as stated fails for an event holding a tuple: the invocation
    succeeds, and the parsed body (where the tuple is a list) is not
    equal to the payload. *)
Lemma C4_tuple_counterexample :
  let env := returned (sample_handler tuple_event PNone world0) in
  sample_handler tuple_event PNone world0
  = (Ok env, snd (sample_handler tuple_event PNone world0))
  /\ status_code env = Some (PInt 200)
  /\ exists data parsed,
      payload_of sample_version sample_repr tuple_event PNone (sample_clock 0)
      = Ok data
      /\ body_json env = Some parsed
      /\ py_eq parsed data = false
      /\ parsed <> data.
Proof.
  cbv zeta. split; [vm_compute; reflexivity|].
  split; [vm_compute; reflexivity|].
  eexists _, _. split; [vm_compute; reflexivity|].
  split; [vm_compute; reflexivity|].
  split; [vm_compute; reflexivity | vm_compute; discriminate].
Qed.

(** C4 at the event of the source's [__main__] block. *)
Lemma C4_body_round_trip_witness :
  let env := returned (sample_handler test_event PNone world0) in
  json_native test_event = true
  /\ well_formed test_event = true
  /\ exists data parsed,
      payload_of sample_version sample_repr test_event PNone (sample_clock 0)
      = Ok data
      /\ body_json env = Some parsed
      /\ parsed = data
      /\ py_eq parsed data = true.
Proof.
  cbv zeta. split; [reflexivity|]. split; [reflexivity|].
  apply (C4_body_round_trip sample_version sample_clock quiet_sink sample_repr
           test_event PNone world0 _
           (snd (sample_handler test_event PNone world0)));
    vm_compute; reflexivity.
Defined.

(** C5 at an event holding bytes: [json.dumps] raises [TypeError]. *)
Lemma C5_error_envelope_witness :
  let e := not_serializable (PBytes [0; 255]) in
  let env := returned (sample_handler bytes_event PNone world0) in
  try_body sample_version sample_clock quiet_sink sample_repr
    bytes_event PNone world0
  = (Raise e, mkWorld [start_record] 0)
  /\ status_code env = Some (PInt 500)
  /\ exists body,
      body_json env = Some body
      /\ item body (u "message") = Some (PStr (py_str_exn e))
      /\ item body (u "status") = Some (PStr (u "ERROR")).
Proof.
  cbv zeta.
  assert (Hb : try_body sample_version sample_clock quiet_sink sample_repr
                 bytes_event PNone world0
               = (Raise (not_serializable (PBytes [0; 255])),
                  mkWorld [start_record] 0))
    by (vm_compute; reflexivity).
  split; [exact Hb|].
  destruct (C5_error_envelope sample_version sample_clock quiet_sink
              sample_repr bytes_event PNone world0 _ _
              (returned (sample_handler bytes_event PNone world0))
              (snd (sample_handler bytes_event PNone world0)) Hb)
    as (Hs & _ & ts & Hj); [vm_compute; reflexivity|].
  split; [exact Hs|].
  eexists. split; [exact Hj|]. split; reflexivity.
Defined.

(** C6 as stated fails for an event holding a tuple: the [input_event]
    field of the body is not equal to the event. *)
Lemma C6_tuple_counterexample :
  let env := returned (sample_handler tuple_event PNone world0) in
  sample_handler tuple_event PNone world0
  = (Ok env, snd (sample_handler tuple_event PNone world0))
  /\ status_code env = Some (PInt 200)
  /\ exists body echoed,
      body_json env = Some body
      /\ item body (u "input_event") = Some echoed
      /\ py_eq echoed tuple_event = false
      /\ echoed <> tuple_event.
Proof.
  cbv zeta. split; [vm_compute; reflexivity|].
  split; [vm_compute; reflexivity|].
  eexists _, _. split; [vm_compute; reflexivity|].
  split; [vm_compute; reflexivity|].
  split; [vm_compute; reflexivity | vm_compute; discriminate].
Qed.

(** C6 at the event of the source's [__main__] block. *)
Lemma C6_input_event_echo_witness :
  let env := returned (sample_handler test_event PNone world0) in
  exists body,
    body_json env = Some body
    /\ item body (u "input_event") = Some test_event
    /\ w_ticks (snd (sample_handler test_event PNone world0)) = 1%nat.
Proof.
  cbv zeta.
  destruct (C6_input_event_echo sample_version sample_clock quiet_sink
              sample_repr test_event PNone world0
              (returned (sample_handler test_event PNone world0))
              (snd (sample_handler test_event PNone world0)))
    as (data & body & dumped & _ & _ & Hj & Hi & Hn & Hw);
    [vm_compute; reflexivity | vm_compute; reflexivity |].
  exists body. split; [exact Hj|]. split.
  - rewrite Hi, (proj1 (Hn eq_refl eq_refl)). reflexivity.
  - rewrite Hw. reflexivity.
Defined.

(** C7 at the event of the source's [__main__] block. *)
Lemma C7_message_field_witness :
  let env := returned (sample_handler test_event PNone world0) in
  item test_event (u "message")
  = Some (PStr (u "Python闘魂テスト from ローカル"))
  /\ exists body msg,
      body_json env = Some body
      /\ item body (u "message") = Some (PStr msg)
      /\ str_contains (u "Python闘魂テスト from ローカル") msg = true.
Proof.
  cbv zeta. split; [reflexivity|].
  destruct (C7_message_field sample_version sample_clock quiet_sink
              sample_repr test_event PNone world0
              (returned (sample_handler test_event PNone world0))
              (snd (sample_handler test_event PNone world0)))
    as (body & msg & Hj & Hm & _ & _ & Hc);
    [vm_compute; reflexivity | vm_compute; reflexivity |].
  exists body, msg. split; [exact Hj|]. split; [exact Hm|].
  apply Hc. reflexivity.
Defined.

(** C8 at the empty event, context [None]. *)
Lemma C8_success_envelope_witness :
  let env := returned (sample_handler (PDict []) PNone world0) in
  status_code env = Some (PInt 200)
  /\ headers_of env
     = Some (PDict
               [ (KStr (u "Content-Type"),
                   PStr (u "application/json; charset=utf-8"));
                 (KStr (u "X-Toukon-Power"), PStr (u "MAX"));
                 (KStr (u "X-Python-Engine"), PStr (u "True")) ]).
Proof.
  cbv zeta.
  assert (Hs : status_code (returned (sample_handler (PDict []) PNone world0))
               = Some (PInt 200)) by (vm_compute; reflexivity).
  split; [exact Hs|].
  apply (C8_success_envelope sample_version sample_clock quiet_sink
           sample_repr (PDict []) PNone world0 _
           (snd (sample_handler (PDict []) PNone world0)));
    [vm_compute; reflexivity | exact Hs].
Defined.

(** C9 on the error path, at an event holding bytes. *)
Lemma C9_timestamp_witness :
  let env := returned (sample_handler bytes_event PNone world0) in
  (forall n, valid_datetime (sample_clock n) = true)
  /\ exists body ts,
      body_json env = Some body
      /\ item body (u "timestamp") = Some (PStr ts)
      /\ ts = u "2025-08-02T12:30:15.123456Z"
      /\ parse_iso8601_utc ts = Some (sample_clock 0).
Proof.
  cbv zeta.
  assert (Hv : forall n, valid_datetime (sample_clock n) = true)
    by (intros n; reflexivity).
  split; [exact Hv|].
  destruct (C9_timestamp sample_version sample_clock quiet_sink sample_repr
              bytes_event PNone world0
              (returned (sample_handler bytes_event PNone world0))
              (snd (sample_handler bytes_event PNone world0)))
    as (body & ts & t & Hj & Hi & _ & _ & Hts & _ & Hp);
    [vm_compute; reflexivity | exact Hv |].
  exists body, ts. split; [exact Hj|]. split; [exact Hi|].
  split; [rewrite Hts; vm_compute; reflexivity | exact Hp].
Defined.

(** C10 as stated fails when the invocations differ in how the logger
    behaves: with the same event, context, clock, version and world, a
    logger that accepts every record gives status 200 and a logger whose
    INFO calls raise gives status 500. *)
Lemma C10_logging_counterexample :
  let out1 := lambda_handler sample_version sample_clock quiet_sink
                sample_repr test_event PNone world0 in
  let out2 := lambda_handler sample_version sample_clock failing_info_sink
                sample_repr test_event PNone world0 in
  fst out1 = Ok (returned out1)
  /\ fst out2 = Ok (returned out2)
  /\ status_code (returned out1) = Some (PInt 200)
  /\ status_code (returned out2) = Some (PInt 500)
  /\ returned out1 <> returned out2.
Proof.
  cbv zeta. split; [vm_compute; reflexivity|].
  split; [vm_compute; reflexivity|]. split; [vm_compute; reflexivity|].
  split; [vm_compute; reflexivity|].
  intros H. apply (f_equal status_code) in H. vm_compute in H. discriminate.
Qed.

(** C10 at two worlds with different logs and clock positions. *)
Lemma C10_deterministic_witness :
  within_limits test_event = true
  /\ within_limits (request_id_of PNone) = true
  /\ (forall r, quiet_sink r = quiet_sink r)
  /\ fst (sample_handler test_event PNone world0)
     = fst (sample_handler test_event PNone later_world).
Proof.
  split; [reflexivity|]. split; [reflexivity|]. split; [reflexivity|].
  apply (C10_deterministic sample_version sample_repr sample_clock quiet_sink
           sample_clock quiet_sink test_event PNone world0 later_world);
    reflexivity.
Defined.

(** * Further properties *)

(** ** What [encode] writes and what it raises *)

Lemma key_to_str_cases k :
  (key_serializable k = true /\ exists s, key_to_str k = Ok s)
  \/ (key_serializable k = false
      /\ exists e, exn_cls e = TypeError /\ key_to_str k = Raise e).
Proof.
  destruct k as [|[|]|z|s|b]; cbn [key_serializable key_to_str];
    try (left; split; [reflexivity | eexists; reflexivity]).
  right. split; [reflexivity|]. eexists. split; [|reflexivity]. reflexivity.
Qed.

Lemma mapM_cons {A B} (f : A -> result B) x r :
  mapM f (x :: r)
  = rbind (f x) (fun y => rbind (mapM f r) (fun ys => Ok (y :: ys))).
Proof. reflexivity. Qed.

Lemma mapM_encode_cases xs :
  Forall encodes xs ->
  (forallb json_serializable xs = true
   /\ forall indent level,
       exists parts, mapM (encode indent level) xs = Ok parts)
  \/ (forallb json_serializable xs = false
      /\ exists e, exn_cls e = TypeError
                   /\ forall indent level,
                       mapM (encode indent level) xs = Raise e).
Proof.
  induction 1 as [|x xs [Hok Hbad] _ IH].
  - left. split; [reflexivity|]. intros. eexists. reflexivity.
  - cbn [forallb]. destruct (json_serializable x) eqn:Hx.
    + destruct IH as [[Hs Hall] | [Hs (e & He & Hall)]].
      * left. split; [now rewrite Hs|]. intros indent level.
        destruct (Hok eq_refl indent level) as [s Es].
        destruct (Hall indent level) as [parts Ep].
        exists (s :: parts). now rewrite mapM_cons, Es, Ep.
      * right. split; [now rewrite Hs|]. exists e. split; [exact He|].
        intros indent level.
        destruct (Hok eq_refl indent level) as [s Es].
        now rewrite mapM_cons, Es, Hall.
    + right. split; [reflexivity|].
      destruct (Hbad eq_refl) as (e & He & Hall). exists e.
      split; [exact He|]. intros indent level.
      now rewrite mapM_cons, Hall.
Qed.

Lemma mapM_encode_item_cases kvs :
  Forall (fun kv => encodes (snd kv)) kvs ->
  (forallb (fun kv => key_serializable (fst kv)
                      && json_serializable (snd kv)) kvs = true
   /\ forall indent level,
       exists parts, mapM (encode_item indent level) kvs = Ok parts)
  \/ (forallb (fun kv => key_serializable (fst kv)
                         && json_serializable (snd kv)) kvs = false
      /\ exists e, exn_cls e = TypeError
                   /\ forall indent level,
                       mapM (encode_item indent level) kvs = Raise e).
Proof.
  induction 1 as [|[k v] kvs [Hok Hbad] _ IH].
  - left. split; [reflexivity|]. intros. eexists. reflexivity.
  - cbn [forallb fst snd] in *.
    destruct (key_to_str_cases k) as [[Hk [ks Ek]] | [Hk (e & He & Ek)]];
      rewrite Hk; cbn [andb].
    + destruct (json_serializable v) eqn:Hv.
      * destruct IH as [[Hs Hall] | [Hs (e & He & Hall)]].
        -- left. split; [exact Hs|]. intros indent level.
           destruct (Hok eq_refl indent (S level)) as [s Es].
           destruct (Hall indent level) as [parts Ep].
           eexists. rewrite mapM_cons. unfold encode_item at 1.
           cbn [fst snd]. rewrite Ek, Es, Ep. reflexivity.
        -- right. split; [exact Hs|]. exists e. split; [exact He|].
           intros indent level.
           destruct (Hok eq_refl indent (S level)) as [s Es].
           rewrite mapM_cons. unfold encode_item at 1.
           cbn [fst snd]. rewrite Ek, Es, Hall. reflexivity.
      * right. split; [reflexivity|].
        destruct (Hbad eq_refl) as (e & He & Hall). exists e.
        split; [exact He|]. intros indent level.
        rewrite mapM_cons. unfold encode_item at 1.
        cbn [fst snd]. rewrite Ek, Hall. reflexivity.
    + right. split; [reflexivity|]. exists e. split; [exact He|].
      intros indent level. rewrite mapM_cons. unfold encode_item at 1.
      cbn [fst snd]. rewrite Ek. reflexivity.
Qed.

Lemma encode_list_unfold indent level xs :
  encode indent level (PList xs)
  = rbind (mapM (encode indent (S level)) xs)
      (fun parts => Ok (encode_container indent level 91 93 parts)).
Proof. reflexivity. Qed.

Lemma encode_tuple_unfold indent level xs :
  encode indent level (PTuple xs)
  = rbind (mapM (encode indent (S level)) xs)
      (fun parts => Ok (encode_container indent level 91 93 parts)).
Proof. reflexivity. Qed.

Lemma encodes_all o : encodes o.
Proof.
  induction o as [|b|z|t|b|xs IH|xs IH|kvs IH|cls attrs IH] using pyval_ind;
    unfold encodes; cbn [json_serializable];
    try (split; [intros _ indent level; eexists; reflexivity | discriminate]).
  - split; [intros _ indent level; destruct b; eexists; reflexivity
           | discriminate].
  - split; [discriminate|]. intros _. eexists. split; [|reflexivity].
    reflexivity.
  - destruct (mapM_encode_cases xs IH) as [[Hs Hall] | [Hs (e & He & Hall)]];
      rewrite Hs; (split; [|discriminate]) || (split; [discriminate|]).
    + intros _ indent level. destruct (Hall indent (S level)) as [parts Ep].
      eexists. now rewrite encode_list_unfold, Ep.
    + intros _. exists e. split; [exact He|]. intros indent level.
      now rewrite encode_list_unfold, Hall.
  - destruct (mapM_encode_cases xs IH) as [[Hs Hall] | [Hs (e & He & Hall)]];
      rewrite Hs; (split; [|discriminate]) || (split; [discriminate|]).
    + intros _ indent level. destruct (Hall indent (S level)) as [parts Ep].
      eexists. now rewrite encode_tuple_unfold, Ep.
    + intros _. exists e. split; [exact He|]. intros indent level.
      now rewrite encode_tuple_unfold, Hall.
  - destruct (mapM_encode_item_cases kvs IH)
      as [[Hs Hall] | [Hs (e & He & Hall)]];
      rewrite Hs; (split; [|discriminate]) || (split; [discriminate|]).
    + intros _ indent level. destruct (Hall indent level) as [parts Ep].
      eexists. now rewrite encode_dict_unfold, Ep.
    + intros _. exists e. split; [exact He|]. intros indent level.
      now rewrite encode_dict_unfold, Hall.
  - split; [discriminate|]. intros _. eexists. split; [|reflexivity].
    reflexivity.
Qed.

Lemma dumps_serializable o indent :
  json_serializable o = true -> exists s, json_dumps indent o = Ok s.
Proof. intros H. apply (proj1 (encodes_all o) H). Qed.

Lemma dumps_unserializable o :
  json_serializable o = false ->
  exists e, exn_cls e = TypeError
            /\ forall indent, json_dumps indent o = Raise e.
Proof.
  intros H. destruct (proj2 (encodes_all o) H) as (e & He & Hall).
  exists e. split; [exact He|]. intros indent. apply Hall.
Qed.

Lemma dumps_ok_serializable o indent s :
  json_dumps indent o = Ok s -> json_serializable o = true.
Proof.
  intros H. destruct (json_serializable o) eqn:E; [reflexivity|].
  destruct (dumps_unserializable o E) as (e & _ & Hall).
  rewrite Hall in H. discriminate.
Qed.

(** ** [dict.get] and the payload *)

Lemma lookup_serializable k d v :
  dict_lookup k d = Some v ->
  forallb (fun kv => key_serializable (fst kv)
                     && json_serializable (snd kv)) d = true ->
  json_serializable v = true.
Proof.
  induction d as [|[k' v'] d IH]; [discriminate|].
  cbn [dict_lookup forallb fst snd]. intros Hl Hn.
  apply andb_prop in Hn as [Hkv Hd]. apply andb_prop in Hkv as [_ Hv].
  destruct (key_eqb k' k); [now injection Hl as <- | auto].
Qed.

Lemma py_get_dict_serializable event key s :
  is_dict event = true -> json_serializable event = true ->
  exists v, py_get event (KStr key) (PStr s) = Ok v
            /\ json_serializable v = true.
Proof.
  destruct event as [| | | | | | |d|cls attrs]; try discriminate.
  intros _ Hs. cbn [py_get json_serializable] in *.
  destruct (dict_lookup (KStr key) d) as [x|] eqn:Hl.
  - exists x. split; [reflexivity|]. eapply lookup_serializable; eassumption.
  - eexists. split; reflexivity.
Qed.

Lemma py_get_ok_is_dict event key default v :
  py_get event key default = Ok v -> is_dict event = true.
Proof.
  destruct event as [| | | | | | |d|cls attrs]; cbn [py_get];
    try discriminate; [reflexivity|].
  destruct (attr_lookup (u "get") attrs); discriminate.
Qed.

Lemma py_get_not_dict event key default :
  is_dict event = false -> json_serializable event = true ->
  py_get event key default = Raise (no_attribute event (u "get")).
Proof.
  destruct event; try discriminate; reflexivity.
Qed.

Section PayloadFacts.

Variable version_info : N * N * N.
Variable clock : nat -> datetime.
Variable sink : log_record -> option exn.
Variable repr_other : pyval -> pystr.

Let handler := lambda_handler version_info clock sink repr_other.
Let body_of_try := try_body version_info clock sink repr_other.
Let payload := payload_of version_info repr_other.
Let data_of := response_data version_info repr_other.

Lemma response_data_serializable event rid ts im tp :
  json_serializable (data_of event rid ts im tp)
  = json_serializable rid && (json_serializable event
                              && json_serializable tp).
Proof.
  unfold data_of, response_data.
  cbn [json_serializable forallb fst snd key_serializable andb].
  now rewrite !andb_true_r.
Qed.

Lemma payload_serializable event context now :
  is_dict event = true -> json_serializable event = true ->
  json_serializable (request_id_of context) = true ->
  exists data, payload event context now = Ok data
               /\ json_serializable data = true.
Proof.
  intros Hd Hs Hr. unfold payload, payload_of.
  destruct (py_get_dict_serializable event (u "message") default_message Hd Hs)
    as (im & Eim & _).
  destruct (py_get_dict_serializable event (u "test") (u "default") Hd Hs)
    as (tp & Etp & Htp).
  rewrite Eim, Etp. cbn [rbind]. eexists. split; [reflexivity|].
  fold data_of. now rewrite response_data_serializable, Hr, Hs, Htp.
Qed.
End PayloadFacts.

(** ** The text [json.dumps] writes *)

(** *** Control characters *)










(** *** Characters written as they are *)

Lemma escape_char_unescaped c : unescaped c = true -> escape_char c = [c].
Proof.
  unfold unescaped, escape_char. intros H.
  apply andb_prop in H as [H H92]. apply andb_prop in H as [H32 H34].
  apply negb_true_iff in H92, H34. rewrite H34, H92.
  apply N.leb_le in H32.
  destruct (N.eqb_spec c 10); [lia|]. destruct (N.eqb_spec c 13); [lia|].
  destruct (N.eqb_spec c 9); [lia|]. destruct (N.eqb_spec c 8); [lia|].
  destruct (N.eqb_spec c 12); [lia|].
  destruct (N.ltb_spec c 32); [lia | reflexivity].
Qed.

Lemma encode_basestring_unescaped s :
  forallb unescaped s = true -> encode_basestring s = 34 :: s ++ [34].
Proof.
  intros H. unfold encode_basestring. f_equal. f_equal.
  induction s as [|c s IH]; [reflexivity|].
  cbn [forallb] in H. apply andb_prop in H as [Hc Hs].
  cbn [flat_map]. now rewrite (escape_char_unescaped c Hc), IH.
Qed.

(** *** The image of a serialisable value *)

Lemma dict_set_Forall (A : pykey -> Prop) (B : pyval -> Prop) d k v :
  Forall (fun kv => A (fst kv) /\ B (snd kv)) d -> A k -> B v ->
  Forall (fun kv => A (fst kv) /\ B (snd kv)) (dict_set d k v).
Proof.
  intros Hd Hk Hv. induction Hd as [|[k' v'] d [Hk' Hv'] Hd IH].
  - cbn [dict_set]. constructor; [split; assumption | constructor].
  - cbn [dict_set]. cbn [fst snd] in *.
    destruct (key_eqb k' k); constructor; try assumption; split; assumption.
Qed.

Lemma py_dict_Forall (A : pykey -> Prop) (B : pyval -> Prop) l :
  Forall (fun kv => A (fst kv) /\ B (snd kv)) l ->
  Forall (fun kv => A (fst kv) /\ B (snd kv)) (py_dict l).
Proof.
  unfold py_dict. intros Hl.
  assert (G : forall acc,
             Forall (fun kv => A (fst kv) /\ B (snd kv)) acc ->
             Forall (fun kv => A (fst kv) /\ B (snd kv))
               (fold_left (fun d kv => dict_set d (fst kv) (snd kv)) l acc)).
  { induction Hl as [|[k v] l [Hk Hv] _ IH]; intros acc Hacc;
      [exact Hacc|].
    cbn [fold_left fst snd]. apply IH. now apply dict_set_Forall. }
  apply G. constructor.
Qed.

Lemma dict_set_existsb k0 d k v :
  key_eqb k0 k = false ->
  existsb (key_eqb k0) (map fst (dict_set d k v))
  = existsb (key_eqb k0) (map fst d).
Proof.
  intros Hk. induction d as [|[k' v'] d IH].
  - cbn [dict_set map fst existsb]. now rewrite Hk.
  - cbn [dict_set]. destruct (key_eqb k' k); [reflexivity|].
    cbn [map fst existsb]. now rewrite IH.
Qed.

Lemma dict_set_keys_unique d k v :
  keys_unique d = true -> keys_unique (dict_set d k v) = true.
Proof.
  induction d as [|[k' v'] d IH]; [reflexivity|].
  cbn [keys_unique dict_set]. intros H. apply andb_prop in H as [Hk Hd].
  destruct (key_eqb k' k) eqn:E.
  - cbn [keys_unique]. now rewrite Hk, Hd.
  - cbn [keys_unique]. now rewrite (dict_set_existsb _ _ _ _ E), Hk, IH.
Qed.

Lemma py_dict_keys_unique l : keys_unique (py_dict l) = true.
Proof.
  unfold py_dict.
  assert (G : forall acc,
             keys_unique acc = true ->
             keys_unique
               (fold_left (fun d kv => dict_set d (fst kv) (snd kv)) l acc)
             = true).
  { induction l as [|[k v] l IH]; intros acc Hacc; [exact Hacc|].
    cbn [fold_left fst snd]. apply IH. now apply dict_set_keys_unique. }
  now apply G.
Qed.

(** What [json.loads] returns is built from JSON values only, whatever
    was serialised. *)
Lemma json_image_is_native o :
  json_serializable o = true ->
  json_native (json_image o) = true /\ well_formed (json_image o) = true.
Proof.
  induction o as [|b|z|t|b|xs IH|xs IH|kvs IH|cls attrs IH] using pyval_ind;
    cbn [json_serializable json_image]; try discriminate;
    try (intros _; split; reflexivity).
  - intros Hs. cbn [json_native well_formed].
    induction IH as [|x xs Hx _ IHxs]; [split; reflexivity|].
    cbn [forallb map] in *. apply andb_prop in Hs as [Hs1 Hs2].
    destruct (Hx Hs1) as [-> ->]. now apply IHxs.
  - intros Hs. cbn [json_native well_formed].
    induction IH as [|x xs Hx _ IHxs]; [split; reflexivity|].
    cbn [forallb map] in *. apply andb_prop in Hs as [Hs1 Hs2].
    destruct (Hx Hs1) as [-> ->]. now apply IHxs.
  - intros Hs. cbn [json_native well_formed].
    rewrite py_dict_keys_unique. cbn [andb].
    assert (F : Forall (fun kv => is_str_key (fst kv) = true
                                  /\ (json_native (snd kv) = true
                                      /\ well_formed (snd kv) = true))
                  (py_dict
                     (map (fun kv => (KStr (key_text (fst kv)),
                                      json_image (snd kv))) kvs))).
    { apply (py_dict_Forall (fun k => is_str_key k = true)
               (fun v => json_native v = true /\ well_formed v = true)).
      induction IH as [|[k v] kvs Hx _ IHkvs]; [constructor|].
      cbn [forallb map fst snd] in *.
      apply andb_prop in Hs as [Hs1 Hs2]. apply andb_prop in Hs1 as [_ Hv].
      constructor; [|now apply IHkvs].
      cbn [fst snd]. split; [reflexivity | now apply Hx]. }
    rewrite Forall_forall in F.
    split; apply forallb_forall; intros kv Hin;
      destruct (F kv Hin) as (Hk & Hn & Hw).
    + now rewrite Hk, Hn.
    + exact Hw.
Qed.

(** The image is within the limits when the value is. *)
Lemma within_json_image o :
  forall d, within d o = true -> within d (json_image o) = true.
Proof.
  induction o as [|b|z|t|b|xs IH|xs IH|kvs IH|cls attrs IH] using pyval_ind;
    intros d; cbn [json_image]; try (intros H; exact H).
  - cbn [within]. destruct d as [|d]; [discriminate|]. intros Hs.
    induction IH as [|x xs Hx _ IHxs]; [reflexivity|].
    cbn [forallb map] in *. apply andb_prop in Hs as [Hs1 Hs2].
    now rewrite (Hx d Hs1), (IHxs Hs2).
  - cbn [within]. destruct d as [|d]; [discriminate|]. intros Hs.
    induction IH as [|x xs Hx _ IHxs]; [reflexivity|].
    cbn [forallb map] in *. apply andb_prop in Hs as [Hs1 Hs2].
    now rewrite (Hx d Hs1), (IHxs Hs2).
  - cbn [within]. destruct d as [|d]; [discriminate|]. intros Hs.
    assert (F : Forall (fun kv => key_within (fst kv) = true
                                  /\ within d (snd kv) = true)
                  (py_dict
                     (map (fun kv => (KStr (key_text (fst kv)),
                                      json_image (snd kv))) kvs))).
    { apply (py_dict_Forall (fun k => key_within k = true)
               (fun v => within d v = true)).
      induction IH as [|[k v] kvs Hx _ IHkvs]; [constructor|].
      cbn [forallb map fst snd] in *.
      apply andb_prop in Hs as [Hs1 Hs2]. apply andb_prop in Hs1 as [_ Hv].
      constructor; [|now apply IHkvs].
      cbn [fst snd]. split; [reflexivity | now apply Hx]. }
    rewrite Forall_forall in F.
    apply forallb_forall. intros kv Hin.
    destruct (F kv Hin) as [Hk Hv]. now rewrite Hk, Hv.
Qed.

Lemma native_serializable o :
  json_native o = true -> json_serializable o = true.
Proof.
  induction o as [|b|z|t|b|xs IH|xs IH|kvs IH|cls attrs IH] using pyval_ind;
    cbn [json_native json_serializable]; try discriminate;
    try reflexivity.
  - intros Hn. induction IH as [|x xs Hx _ IHxs]; [reflexivity|].
    cbn [forallb] in *. apply andb_prop in Hn as [Hn1 Hn2].
    now rewrite Hx, IHxs.
  - intros Hn. induction IH as [|[k v] kvs Hx _ IHkvs]; [reflexivity|].
    cbn [forallb fst snd] in *. apply andb_prop in Hn as [Hn1 Hn2].
    apply andb_prop in Hn1 as [Hk Hv].
    rewrite (Hx Hv), (IHkvs Hn2). destruct k; try discriminate. reflexivity.
Qed.

(** A JSON value survives [json.loads(json.dumps(v))] unchanged. *)
Lemma native_round_trip o indent :
  json_native o = true -> well_formed o = true ->
  exists s, json_dumps indent o = Ok s /\ json_loads s = Some o.
Proof.
  intros Hn Hw.
  destruct (dumps_serializable o indent (native_serializable o Hn)) as [s Es].
  exists s. split; [exact Es|].
  rewrite (loads_dumps _ _ _ Es). now rewrite json_image_native.
Qed.

(** ** The outcomes of an invocation *)

Section OutcomeFacts.

Variable version_info : N * N * N.
Variable clock : nat -> datetime.
Variable sink : log_record -> option exn.
Variable repr_other : pyval -> pystr.

Let handler := lambda_handler version_info clock sink repr_other.
Let body_of_try := try_body version_info clock sink repr_other.
Let payload := payload_of version_info repr_other.
Let data_of := response_data version_info repr_other.

(** The [try] body when the log accepts every INFO record. *)
Lemma try_body_accepting event context w :
  (forall r, is_info r = true -> sink r = None) ->
  body_of_try event context w
  = match json_dumps None event with
    | Raise e => (Raise e, after_log w [start_record] (w_ticks w))
    | Ok dumped =>
    let w2 := after_log w [start_record; event_record dumped]
                (S (w_ticks w)) in
    match payload event context (clock (w_ticks w)) with
    | Raise e => (Raise e, w2)
    | Ok data =>
    match json_dumps (Some 2%nat) data with
    | Raise e => (Raise e, w2)
    | Ok body =>
        (Ok (envelope 200 success_headers body),
         after_log w [start_record; event_record dumped; done_record]
           (S (w_ticks w)))
    end end end.
Proof.
  intros Hinfo. unfold body_of_try, payload.
  rewrite try_body_cases.
  rewrite (Hinfo start_record eq_refl).
  destruct (json_dumps None event) as [dumped|]; [|reflexivity].
  rewrite (Hinfo (event_record dumped) eq_refl). cbv zeta.
  destruct (payload_of version_info repr_other event context
              (clock (w_ticks w))) as [data|]; [|reflexivity].
  destruct (json_dumps (Some 2%nat) data) as [body|]; [|reflexivity].
  now rewrite (Hinfo done_record eq_refl).
Qed.

(** What a raising [try] body has done to the world. *)
Lemma try_body_raise_world event context w e w1 :
  body_of_try event context w = (Raise e, w1) ->
  exists infos,
    w_log w1 = w_log w ++ infos
    /\ forallb is_info infos = true
    /\ (length infos <= 2)%nat
    /\ (w_ticks w <= w_ticks w1 <= S (w_ticks w))%nat.
Proof.
  unfold body_of_try. rewrite try_body_cases. unfold after_log.
  destruct (sink start_record).
  { intros [= _ <-]. exists []. rewrite app_nil_r.
    repeat split; cbn [length forallb]; lia. }
  destruct (json_dumps None event) as [dumped|].
  2:{ intros [= _ <-]. exists [start_record]. cbn [w_log w_ticks length].
      repeat split; lia. }
  destruct (sink (event_record dumped)).
  { intros [= _ <-]. exists [start_record]. cbn [w_log w_ticks length].
    repeat split; lia. }
  cbv zeta.
  destruct (payload_of version_info repr_other event context
              (clock (w_ticks w))) as [data|].
  2:{ intros [= _ <-]. exists [start_record; event_record dumped].
      cbn [w_log w_ticks length]. repeat split; lia. }
  destruct (json_dumps (Some 2%nat) data) as [body|].
  2:{ intros [= _ <-]. exists [start_record; event_record dumped].
      cbn [w_log w_ticks length]. repeat split; lia. }
  destruct (sink done_record); [|discriminate].
  intros [= _ <-]. exists [start_record; event_record dumped].
  cbn [w_log w_ticks length]. repeat split; lia.
Qed.

Lemma error_body_loads e ts :
  json_loads (error_body e ts) = Some (error_data e ts).
Proof.
  now rewrite (loads_dumps _ _ _ (error_data_serialises e ts)).
Qed.

(** The handler when the [try] body raises and the error record is
    accepted. *)
Lemma handler_caught event context w e w1 :
  body_of_try event context w = (Raise e, w1) ->
  sink (error_record e) = None ->
  handler event context w
  = (Ok (envelope 500 error_headers
           (error_body e (isoformat (clock (w_ticks w1)) ++ u "Z"))),
     after_log w1 [error_record e] (S (w_ticks w1))).
Proof.
  intros Hb He. unfold handler, body_of_try in *.
  now rewrite handler_unfold, Hb, except_block_spec, He.
Qed.

Lemma w_log_after_log w rs n : w_log (after_log w rs n) = w_log w ++ rs.
Proof. reflexivity. Qed.

(** Within the limits of the interpreter, a serialisable [dict] event
    with a serialisable request id is answered with status 200 when the
    log accepts INFO records.  [encode] has no limits, so the proof does
    not use the two bounds: they keep the statement to the values on
    which [encode] is what [json.dumps] does. *)
Lemma handler_succeeds event context w :
  (forall r, is_info r = true -> sink r = None) ->
  is_dict event = true -> json_serializable event = true ->
  json_serializable (request_id_of context) = true ->
  within_limits event = true ->
  within_limits (request_id_of context) = true ->
  exists env w',
    handler event context w = (Ok env, w')
    /\ status_code env = Some (PInt 200).
Proof.
  intros Hinfo Hd Hs Hr _ _.
  destruct (dumps_serializable event None Hs) as [dumped Ed].
  destruct (payload_serializable version_info repr_other event context
              (clock (w_ticks w)) Hd Hs Hr) as (data & Ep & Hdata).
  destruct (dumps_serializable data (Some 2%nat) Hdata) as [body Eb].
  eexists _, _. unfold handler. rewrite handler_unfold.
  fold body_of_try. rewrite (try_body_accepting _ _ _ Hinfo), Ed.
  cbv zeta. unfold payload. rewrite Ep, Eb.
  split; reflexivity.
Qed.

(** X1: for an event and a request id within the limits of the
    interpreter (integers of at most 640 digits, containers nested at
    most 100 deep), and a log that accepts INFO records, the handler
    answers with status 200 exactly when the event is a [dict] built
    from what [json.dumps] encodes and the request id is such a
    value. *)
Theorem X1_success_iff event context w :
  within_limits event = true ->
  within_limits (request_id_of context) = true ->
  (forall r, is_info r = true -> sink r = None) ->
  (exists env w',
      handler event context w = (Ok env, w')
      /\ status_code env = Some (PInt 200))
  <-> (is_dict event = true
       /\ json_serializable event = true
       /\ json_serializable (request_id_of context) = true).
Proof.
  intros Hle Hlr Hinfo. split.
  - intros (env & w' & Hh & Hs).
    destruct (success_path _ _ _ _ _ _ _ _ _ Hh Hs)
      as (dumped & im & tp & body & Hd & Him & _ & Hb & _).
    split; [now apply py_get_ok_is_dict in Him|].
    split; [now apply dumps_ok_serializable in Hd|].
    apply dumps_ok_serializable in Hb.
    rewrite response_data_serializable in Hb.
    now apply andb_prop in Hb as [Hr _].
  - intros (Hd & Hs & Hr). now apply handler_succeeds.
Qed.

Lemma payload_not_dict event context now :
  is_dict event = false -> json_serializable event = true ->
  payload event context now = Raise (no_attribute event (u "get")).
Proof.
  intros Hd Hs. unfold payload, payload_of.
  now rewrite (py_get_not_dict event _ _ Hd Hs).
Qed.

Lemma after_log_twice w rs n e m :
  after_log (after_log w rs n) [e] m = after_log w (rs ++ [e]) m.
Proof. unfold after_log. cbn [w_log]. now rewrite <- app_assoc. Qed.

Lemma item_error_message e ts :
  item (error_data e ts) (u "message") = Some (PStr (py_str_exn e)).
Proof. reflexivity. Qed.

(** X2: an event that is not a [dict] ([None], a number, a string, a
    list), built from what [json.dumps] encodes and within the limits
    of the interpreter, has no [get]: the invocation fails at line 40
    with [AttributeError] and answers with status 500 and the message
    ['<type>' object has no attribute 'get']; the clock is read twice
    and the timestamp is the second reading; the log gains the error
    record, after no other records than the start line and the event
    line. *)
Theorem X2_event_without_get event context w :
  is_dict event = false -> json_serializable event = true ->
  within_limits event = true ->
  (forall r, is_info r = true -> sink r = None) ->
  sink (error_record (no_attribute event (u "get"))) = None ->
  exists dumped env w' infos,
    json_dumps None event = Ok dumped
    /\ handler event context w = (Ok env, w')
    /\ w_ticks w' = S (S (w_ticks w))
    /\ w_log w'
       = w_log w ++ infos ++ [error_record (no_attribute event (u "get"))]
    /\ (forall r, In r infos -> r = start_record \/ r = event_record dumped)
    /\ status_code env = Some (PInt 500)
    /\ body_json env
       = Some (error_data (no_attribute event (u "get"))
                 (isoformat (clock (S (w_ticks w))) ++ u "Z"))
    /\ py_str_exn (no_attribute event (u "get"))
       = u "'" ++ type_name event ++ u "' object has no attribute 'get'".
Proof.
  intros Hd Hs _ Hinfo Herr.
  destruct (dumps_serializable event None Hs) as [dumped Ed].
  assert (Hb : body_of_try event context w
               = (Raise (no_attribute event (u "get")),
                  after_log w [start_record; event_record dumped]
                    (S (w_ticks w)))).
  { rewrite (try_body_accepting _ _ _ Hinfo), Ed. cbv zeta.
    now rewrite (payload_not_dict _ _ _ Hd Hs). }
  exists dumped. eexists _, _, [start_record; event_record dumped].
  split; [exact Ed|].
  split; [exact (handler_caught _ _ _ _ _ Hb Herr)|].
  split; [reflexivity|].
  split; [now rewrite !w_log_after_log, <- app_assoc|].
  split; [intros r [<-|[<-|[]]]; [now left | now right]|].
  split; [reflexivity|]. split; [|reflexivity].
  rewrite body_json_envelope. apply error_body_loads.
Qed.

(** X3: an event within the limits of the interpreter that holds
    something [json.dumps] does not encode (bytes, an instance or a
    [bytes] key) fails in the logging statement of line 31, before
    anything else is computed: the invocation answers with status 500
    and the [TypeError] of [json.dumps] as message, the clock is read
    once, for the timestamp of the error, and the log gains the error
    record, after no other record than the start line. *)
Theorem X3_unserialisable_event event context w :
  json_serializable event = false ->
  within_limits event = true ->
  sink start_record = None ->
  (forall e, sink (error_record e) = None) ->
  exists e env w' infos,
    exn_cls e = TypeError
    /\ json_dumps None event = Raise e
    /\ handler event context w = (Ok env, w')
    /\ w_ticks w' = S (w_ticks w)
    /\ w_log w' = w_log w ++ infos ++ [error_record e]
    /\ (forall r, In r infos -> r = start_record)
    /\ status_code env = Some (PInt 500)
    /\ body_json env
       = Some (error_data e (isoformat (clock (w_ticks w)) ++ u "Z")).
Proof.
  intros Hs _ Hstart Herr.
  destruct (dumps_unserializable event Hs) as (e & He & Hall).
  assert (Hb : body_of_try event context w
               = (Raise e, after_log w [start_record] (w_ticks w))).
  { unfold body_of_try. now rewrite try_body_cases, Hstart, Hall. }
  exists e. eexists _, _, [start_record].
  split; [exact He|]. split; [apply Hall|].
  split; [exact (handler_caught _ _ _ _ _ Hb (Herr e))|].
  split; [reflexivity|].
  split; [now rewrite !w_log_after_log, <- app_assoc|].
  split; [now intros r [<-|[]]|].
  split; [reflexivity|].
  rewrite body_json_envelope. apply error_body_loads.
Qed.

Lemma response_data_bad_request_id event rid ts im tp e :
  (forall indent level, encode indent level rid = Raise e) ->
  json_dumps (Some 2%nat) (data_of event rid ts im tp) = Raise e.
Proof.
  intros He. unfold json_dumps, data_of, response_data.
  rewrite encode_dict_unfold, !mapM_cons.
  unfold encode_item at 1 2 3. cbn [fst snd key_to_str encode rbind].
  now rewrite He.
Qed.

(** X4: a request id that [json.dumps] does not encode (the
    [aws_request_id] of the context is not a JSON value) makes the
    serialisation of line 64 fail: for a [dict] event built from what
    [json.dumps] encodes, event and request id within the limits of the
    interpreter, the invocation answers with status 500 and the
    [TypeError] that [json.dumps(request_id)] raises; the clock is read
    twice and the timestamp is the second reading; the log gains the
    error record, after no other records than the start line and the
    event line. *)
Theorem X4_unserialisable_request_id event context w :
  is_dict event = true -> json_serializable event = true ->
  json_serializable (request_id_of context) = false ->
  within_limits event = true ->
  within_limits (request_id_of context) = true ->
  (forall r, is_info r = true -> sink r = None) ->
  (forall e, sink (error_record e) = None) ->
  exists dumped e env w' infos,
    json_dumps None event = Ok dumped
    /\ exn_cls e = TypeError
    /\ json_dumps None (request_id_of context) = Raise e
    /\ handler event context w = (Ok env, w')
    /\ w_ticks w' = S (S (w_ticks w))
    /\ w_log w' = w_log w ++ infos ++ [error_record e]
    /\ (forall r, In r infos -> r = start_record \/ r = event_record dumped)
    /\ status_code env = Some (PInt 500)
    /\ body_json env
       = Some (error_data e (isoformat (clock (S (w_ticks w))) ++ u "Z")).
Proof.
  intros Hd Hs Hr _ _ Hinfo Herr.
  destruct (dumps_serializable event None Hs) as [dumped Ed].
  destruct (proj2 (encodes_all (request_id_of context)) Hr)
    as (e & He & Hall).
  destruct (py_get_dict_serializable event (u "message") default_message
              Hd Hs) as (im & Eim & _).
  destruct (py_get_dict_serializable event (u "test") (u "default") Hd Hs)
    as (tp & Etp & _).
  assert (Hb : body_of_try event context w
               = (Raise e,
                  after_log w [start_record; event_record dumped]
                    (S (w_ticks w)))).
  { rewrite (try_body_accepting _ _ _ Hinfo), Ed. cbv zeta.
    unfold payload, payload_of. rewrite Eim, Etp. cbn [rbind].
    fold data_of. now rewrite (response_data_bad_request_id _ _ _ _ _ _ Hall). }
  exists dumped, e. eexists _, _, [start_record; event_record dumped].
  split; [exact Ed|]. split; [exact He|]. split; [apply Hall|].
  split; [exact (handler_caught _ _ _ _ _ Hb (Herr e))|].
  split; [reflexivity|].
  split; [now rewrite !w_log_after_log, <- app_assoc|].
  split; [intros r [<-|[<-|[]]]; [now left | now right]|].
  split; [reflexivity|].
  rewrite body_json_envelope. apply error_body_loads.
Qed.

(** X5: whenever the handler answers with status 500, it has appended
    to the log at most two INFO records followed by exactly one ERROR
    record; that record carries the caught exception, and the [message]
    of the body is [str] of the same exception. *)
Theorem X5_error_is_logged event context w env w' :
  handler event context w = (Ok env, w') ->
  status_code env = Some (PInt 500) ->
  exists e infos ts,
    w_log w' = w_log w ++ infos
                 ++ [mkRecord ERROR (u "💥 闘魂エラー発生: " ++ py_str_exn e)
                       (Some e)]
    /\ forallb is_info infos = true
    /\ (length infos <= 2)%nat
    /\ body_json env = Some (error_data e ts)
    /\ item (error_data e ts) (u "message") = Some (PStr (py_str_exn e)).
Proof.
  intros Hh Hs. unfold handler in Hh. rewrite handler_unfold in Hh.
  fold body_of_try in Hh.
  destruct (body_of_try event context w) as [[env0|e] w1] eqn:Hb.
  - injection Hh as <- <-.
    apply try_body_ok_inv in Hb as (? & ? & ? & _ & _ & _ & -> & _).
    rewrite status_code_envelope in Hs. discriminate.
  - rewrite except_block_spec in Hh.
    destruct (sink (error_record e)); [discriminate|].
    injection Hh as <- <-.
    destruct (try_body_raise_world _ _ _ _ _ Hb)
      as (infos & Hlog & Hi & Hlen & _).
    exists e, infos. eexists. fold (error_record e).
    split; [unfold after_log; cbn [w_log]; now rewrite Hlog, app_assoc|].
    split; [exact Hi|]. split; [exact Hlen|].
    split; [|reflexivity].
    rewrite body_json_envelope. apply error_body_loads.
Qed.

(** X6: whatever the outcome, an invocation only appends to the log, at
    most three records, and reads the clock at most twice. *)
Theorem X6_footprint event context w :
  exists rs,
    w_log (snd (handler event context w)) = w_log w ++ rs
    /\ (length rs <= 3)%nat
    /\ (w_ticks w <= w_ticks (snd (handler event context w))
        <= 2 + w_ticks w)%nat.
Proof.
  unfold handler. rewrite handler_unfold. fold body_of_try.
  destruct (body_of_try event context w) as [[env0|e] w1] eqn:Hb.
  - apply try_body_ok_inv in Hb as (dumped & ? & ? & _ & _ & _ & _ & ->).
    eexists. cbn [snd after_log w_log w_ticks].
    split; [reflexivity|]. cbn [length]. lia.
  - destruct (try_body_raise_world _ _ _ _ _ Hb)
      as (infos & Hlog & _ & Hlen & Ht).
    rewrite except_block_spec.
    destruct (sink (error_record e)).
    + exists infos. cbn [snd]. split; [exact Hlog|]. lia.
    + exists (infos ++ [error_record e]).
      cbn [snd after_log w_log w_ticks]. rewrite Hlog, app_assoc.
      split; [reflexivity|]. rewrite length_app. cbn [length]. lia.
Qed.

(** X7: on the success path the [test_param] field of the body is the
    JSON image of the event's [test] entry, and ["default"] when the
    event has no such key. *)
Theorem X7_test_param event context w env w' :
  handler event context w = (Ok env, w') ->
  status_code env = Some (PInt 200) ->
  exists body,
    body_json env = Some body
    /\ item body (u "test_param")
       = Some (json_image
                 match item event (u "test") with
                 | Some t => t
                 | None => PStr (u "default")
                 end)
    /\ (item event (u "test") = None ->
        item body (u "test_param") = Some (PStr (u "default")))
    /\ (forall t,
           item event (u "test") = Some (PStr t) ->
           item body (u "test_param") = Some (PStr t)).
Proof.
  intros Hh Hs.
  destruct (success_path _ _ _ _ _ _ _ _ _ Hh Hs)
    as (dumped & im & tp & body & _ & _ & Htp & _ & _ & Hj & _).
  apply py_get_ok_item in Htp.
  eexists. split; [exact Hj|].
  rewrite json_image_response_data.
  assert (E : item
                (PDict
                   [(KStr (u "message"),
                      PStr (message_prefix ++ py_format repr_other im));
                    (KStr (u "timestamp"),
                      PStr (isoformat (clock (w_ticks w)) ++ u "Z"));
                    (KStr (u "request_id"),
                      json_image (request_id_of context));
                    (KStr (u "python_version"),
                      PStr (get_python_version version_info));
                    (KStr (u "input_event"), json_image event);
                    (KStr (u "processed_by"),
                      PStr (u "Python闘魂エンジン"));
                    (KStr (u "status"), PStr (u "VICTORY!"));
                    (KStr (u "toukon_power"), PStr (u "MAX"));
                    (KStr (u "test_param"), json_image tp)])
                (u "test_param") = Some (json_image tp)) by reflexivity.
  rewrite E, Htp. split; [reflexivity|]. split.
  - now intros ->.
  - now intros t ->.
Qed.

(** X8: the only exceptions that leave the handler are those raised by
    logging the caught exception: when the handler raises [e'], the
    [try] body had raised some [e], emitting the error record for [e]
    raised [e'], and no ERROR record was written. *)
Theorem X8_only_logging_errors_escape event context w e' w' :
  handler event context w = (Raise e', w') ->
  exists e infos,
    body_of_try event context w = (Raise e, w')
    /\ sink (error_record e) = Some e'
    /\ w_log w' = w_log w ++ infos
    /\ forallb is_info infos = true.
Proof.
  unfold handler. rewrite handler_unfold. fold body_of_try.
  destruct (body_of_try event context w) as [[env0|e] w1] eqn:Hb;
    [discriminate|].
  rewrite except_block_spec.
  destruct (sink (error_record e)) as [e0|] eqn:He; [|discriminate].
  intros [= <- <-].
  destruct (try_body_raise_world _ _ _ _ _ Hb) as (infos & Hlog & Hi & _).
  exists e, infos. auto.
Qed.

End OutcomeFacts.

(** ** What is logged, returned and printed *)

Section OutputFacts.

Variable version_info : N * N * N.
Variable clock : nat -> datetime.
Variable sink : log_record -> option exn.
Variable repr_other : pyval -> pystr.

Let handler := lambda_handler version_info clock sink repr_other.
Let body_of_try := try_body version_info clock sink repr_other.
Let payload := payload_of version_info repr_other.
Let data_of := response_data version_info repr_other.





Lemma envelope_native code hs body :
  forallb is_str_entry hs = true ->
  keys_unique hs = true ->
  json_native (envelope code (PDict hs) body) = true
  /\ well_formed (envelope code (PDict hs) body) = true.
Proof.
  intros Hs Hu. unfold envelope.
  cbn [json_native well_formed forallb fst snd is_str_key andb].
  rewrite Hu. cbn [andb].
  assert (N1 : forallb (fun kv => is_str_key (fst kv) && json_native (snd kv))
                 hs = true).
  { clear Hu. induction hs as [|[k v] hs IH]; [reflexivity|].
    cbn [forallb fst snd] in *. apply andb_prop in Hs as [H1 H2].
    rewrite (IH H2). destruct k, v; try discriminate. reflexivity. }
  assert (N2 : forallb (fun kv => well_formed (snd kv)) hs = true).
  { clear Hu N1. induction hs as [|[k v] hs IH]; [reflexivity|].
    cbn [forallb fst snd] in *. apply andb_prop in Hs as [H1 H2].
    rewrite (IH H2). destruct k, v; try discriminate. reflexivity. }
  rewrite N1, N2. split; reflexivity.
Qed.

(** What the handler returns. *)
Lemma handler_returns event context w env w' :
  handler event context w = (Ok env, w') ->
  (exists data body,
      json_dumps (Some 2%nat) data = Ok body
      /\ env = envelope 200 success_headers body)
  \/ (exists e ts, env = envelope 500 error_headers (error_body e ts)).
Proof.
  unfold handler. rewrite handler_unfold. fold body_of_try.
  destruct (body_of_try event context w) as [[env0|e] w1] eqn:Hb.
  - intros [= <- <-]. left.
    apply try_body_ok_inv in Hb as (? & data & body & _ & _ & Hd & -> & _).
    eauto.
  - rewrite except_block_spec.
    destruct (sink (error_record e)); [discriminate|].
    intros [= <- <-]. right. eauto.
Qed.

Lemma returned_envelope_native event context w env w' :
  handler event context w = (Ok env, w') ->
  json_native env = true /\ well_formed env = true.
Proof.
  intros Hh.
  destruct (handler_returns _ _ _ _ _ Hh)
    as [(data & body & _ & ->) | (e & ts & ->)];
    apply envelope_native; reflexivity.
Qed.

(** X10: whatever the handler returns can be serialised again: the
    envelope is built from strings, one integer and dicts with string
    keys, so [json.dumps] accepts it for every layout and [json.loads]
    gives the same envelope back. *)
Theorem X10_envelope_is_json event context w env w' indent :
  handler event context w = (Ok env, w') ->
  json_native env = true
  /\ well_formed env = true
  /\ exists text,
      json_dumps indent env = Ok text /\ json_loads text = Some env.
Proof.
  intros Hh.
  destruct (returned_envelope_native _ _ _ _ _ Hh) as [Hn Hw].
  split; [exact Hn|]. split; [exact Hw|].
  now apply native_round_trip.
Qed.

Lemma error_data_native e ts :
  json_native (error_data e ts) = true /\ well_formed (error_data e ts) = true.
Proof. split; reflexivity. Qed.

(** X11: the body of every returned envelope parses to a JSON value
    (strings, integers, booleans, [None], lists and dicts with pairwise
    different string keys), whatever the event held; serialising that
    value and parsing it again gives the same value. *)
Theorem X11_body_is_json event context w env w' :
  handler event context w = (Ok env, w') ->
  exists body,
    body_json env = Some body
    /\ json_native body = true
    /\ well_formed body = true
    /\ forall indent,
        exists text,
          json_dumps indent body = Ok text /\ json_loads text = Some body.
Proof.
  intros Hh.
  destruct (handler_returns _ _ _ _ _ Hh)
    as [(data & body & Hd & ->) | (e & ts & ->)].
  - exists (json_image data). rewrite body_json_envelope.
    split; [now apply (loads_dumps (Some 2%nat))|].
    destruct (json_image_is_native data (dumps_ok_serializable _ _ _ Hd))
      as [Hn Hw].
    split; [exact Hn|]. split; [exact Hw|].
    intros indent. now apply native_round_trip.
  - exists (error_data e ts). rewrite body_json_envelope.
    split; [apply error_body_loads|].
    destruct (error_data_native e ts) as [Hn Hw].
    split; [exact Hn|]. split; [exact Hw|].
    intros indent. now apply native_round_trip.
Qed.

Lemma message_prefix_unescaped : forallb unescaped message_prefix = true.
Proof. vm_compute. reflexivity. Qed.

Lemma response_data_text event rid ts im tp body :
  json_dumps (Some 2%nat) (data_of event rid ts im tp) = Ok body ->
  exists rest,
    body = [123; 10; 32; 32] ++ encode_basestring (u "message") ++ [58; 32]
           ++ encode_basestring (message_prefix ++ py_format repr_other im)
           ++ [44; 10; 32; 32] ++ rest.
Proof.
  unfold json_dumps, data_of, response_data.
  rewrite encode_dict_unfold.
  destruct (mapM (encode_item (Some 2%nat) 0) _) as [parts|] eqn:Em;
    [|discriminate].
  cbn [rbind]. intros [= <-].
  apply mapM_cons_inv in Em as (p1 & ps & E1 & Em & ->).
  apply mapM_cons_inv in Em as (p2 & ps' & E2 & _ & ->).
  unfold encode_item in E1. cbn [fst snd key_to_str encode rbind] in E1.
  injection E1 as <-.
  unfold encode_container. rewrite join_cons2.
  change (newline_indent (Some 2%nat) 1) with [10; 32; 32].
  change (item_separator (Some 2%nat)) with [44].
  unfold key_separator.
  eexists. cbn [app]. rewrite <- !app_assoc. cbn [app]. reflexivity.
Qed.

Lemma item_body_envelope code hs body :
  item (envelope code hs body) (u "body") = Some (PStr body).
Proof. reflexivity. Qed.

Lemma message_key_text :
  encode_basestring (u "message") = 34 :: u "message" ++ [34].
Proof. vm_compute. reflexivity. Qed.

Lemma body_text_assoc (k p m rest : pystr) :
  [123; 10; 32; 32] ++ (34 :: k ++ [34]) ++ [58; 32]
    ++ (34 :: (p ++ m) ++ [34]) ++ [44; 10; 32; 32] ++ rest
  = [123; 10; 32; 32; 34] ++ k ++ [34; 58; 32; 34] ++ p ++ m
      ++ [34; 44; 10; 32; 32] ++ rest.
Proof. cbn [app]. rewrite <- !app_assoc. reflexivity. Qed.

(** X12: the body is written with [ensure_ascii=False] and [indent=2]:
    when the event's [message] is a string without quotes, backslashes
    and control characters, the body text starts with an opening brace,
    a line break, two spaces and the [message] entry, in which the
    greeting and the message stand as they are, Japanese text and emoji
    included, followed by a comma, a line break and two spaces. *)
Theorem X12_body_text event context w env w' m :
  handler event context w = (Ok env, w') ->
  status_code env = Some (PInt 200) ->
  item event (u "message") = Some (PStr m) ->
  forallb unescaped m = true ->
  exists rest,
    item env (u "body")
    = Some (PStr ([123; 10; 32; 32; 34] ++ u "message" ++ [34; 58; 32; 34]
                  ++ message_prefix ++ m
                  ++ [34; 44; 10; 32; 32] ++ rest)).
Proof.
  intros Hh Hs Hm Hu.
  destruct (success_path _ _ _ _ _ _ _ _ _ Hh Hs)
    as (dumped & im & tp & body & _ & Him & _ & Hb & Henv & _).
  apply py_get_ok_item in Him. rewrite Hm in Him. subst im.
  fold data_of in Hb. apply response_data_text in Hb as [rest Hb].
  cbn [py_format] in Hb.
  rewrite (encode_basestring_unescaped (message_prefix ++ m)) in Hb
    by (rewrite forallb_app, message_prefix_unescaped; exact Hu).
  rewrite message_key_text, body_text_assoc in Hb.
  exists rest. rewrite Henv, item_body_envelope, Hb. reflexivity.
Qed.

Lemma json_image_dict event :
  is_dict event = true -> is_dict (json_image event) = true.
Proof. destruct event; try discriminate. reflexivity. Qed.

(** X13: the echoed event is stable under replay: when an invocation
    on an event within the limits of the interpreter succeeds, invoking
    the handler again on the [input_event] it returned (with any
    context whose request id is a value [json.dumps] encodes, within
    the limits, in any world, the log accepting INFO records) succeeds
    and returns the same [input_event]. *)
Theorem X13_echo_replay event context w env w' context2 w2 :
  (forall r, is_info r = true -> sink r = None) ->
  within_limits event = true ->
  handler event context w = (Ok env, w') ->
  status_code env = Some (PInt 200) ->
  json_serializable (request_id_of context2) = true ->
  within_limits (request_id_of context2) = true ->
  exists body echoed env2 w2' body2,
    body_json env = Some body
    /\ item body (u "input_event") = Some echoed
    /\ handler echoed context2 w2 = (Ok env2, w2')
    /\ status_code env2 = Some (PInt 200)
    /\ body_json env2 = Some body2
    /\ item body2 (u "input_event") = Some echoed.
Proof.
  intros Hinfo Hle Hh Hs Hr2 Hlr2.
  destruct (success_path _ _ _ _ _ _ _ _ _ Hh Hs)
    as (dumped & im & tp & body & Hd & Him & _ & _ & _ & Hj & _).
  apply py_get_ok_is_dict in Him. apply dumps_ok_serializable in Hd.
  destruct (json_image_is_native event Hd) as [Hn Hw].
  destruct (handler_succeeds version_info clock sink repr_other
              (json_image event) context2 w2 Hinfo
              (json_image_dict _ Him) (native_serializable _ Hn) Hr2
              (within_json_image event max_nesting Hle) Hlr2)
    as (env2 & w2' & Hh2 & Hs2).
  destruct (success_path _ _ _ _ _ _ _ _ _ Hh2 Hs2)
    as (dumped2 & im2 & tp2 & body2 & _ & _ & _ & _ & _ & Hj2 & _).
  eexists _, (json_image event), env2, w2', _.
  split; [exact Hj|]. rewrite json_image_response_data.
  split; [reflexivity|]. split; [exact Hh2|]. split; [exact Hs2|].
  split; [exact Hj2|]. rewrite json_image_response_data.
  now rewrite (json_image_native _ Hn Hw).
Qed.

Variable stdout_write : pystr -> option exn.

Let run := main version_info clock sink repr_other stdout_write.

(** X14: the script either lets the exception of the handler through,
    printing nothing, or prints the header line and then the returned
    envelope as JSON text with two-space indentation; serialising the
    envelope never fails, and the printed text parses back to the
    envelope. *)
Theorem X14_main_outcome p :
  (forall s, stdout_write s = None) ->
  (forall e w',
      handler test_event PNone (p_world p) = (Raise e, w') ->
      run p = (Raise e, mkProcess w' (p_stdout p)))
  /\ (forall env w',
         handler test_event PNone (p_world p) = (Ok env, w') ->
         exists text,
           json_dumps (Some 2%nat) env = Ok text
           /\ json_loads text = Some env
           /\ run p
              = (Ok tt,
                 mkProcess w'
                   (p_stdout p ++ u "🔥 テスト結果:" ++ [10] ++ text ++ [10]))).
Proof.
  intros Hout. split.
  - intros e w' Hh. unfold run, main. fold handler. now rewrite Hh.
  - intros env w' Hh.
    destruct (returned_envelope_native _ _ _ _ _ Hh) as [Hn Hw].
    destruct (native_round_trip env (Some 2%nat) Hn Hw) as (text & Et & El).
    exists text. split; [exact Et|]. split; [exact El|].
    unfold run, main. fold handler. rewrite Hh.
    unfold print. rewrite Hout, Et, Hout. cbn [p_world p_stdout].
    now rewrite <- !app_assoc.
Qed.

(** X15: run as a script with a log that accepts INFO records, the
    module prints the status-200 envelope of its test event: the request
    id is ["local"], [test_param] is ["toukon"], the event is echoed and
    the message is the greeting followed by the test message. *)
Theorem X15_main_local p :
  (forall r, is_info r = true -> sink r = None) ->
  (forall s, stdout_write s = None) ->
  exists env text w' body,
    run p
    = (Ok tt,
       mkProcess w' (p_stdout p ++ u "🔥 テスト結果:" ++ [10] ++ text ++ [10]))
    /\ json_loads text = Some env
    /\ status_code env = Some (PInt 200)
    /\ (w_ticks w' = S (w_ticks (p_world p)))
    /\ body_json env = Some body
    /\ item body (u "request_id") = Some (PStr (u "local"))
    /\ item body (u "test_param") = Some (PStr (u "toukon"))
    /\ item body (u "input_event") = Some test_event
    /\ item body (u "message")
       = Some (PStr (message_prefix ++ u "Python闘魂テスト from ローカル")).
Proof.
  intros Hinfo Hout.
  destruct (handler_succeeds version_info clock sink repr_other
              test_event PNone (p_world p) Hinfo eq_refl eq_refl eq_refl
              eq_refl eq_refl)
    as (env & w' & Hh & Hs).
  destruct (returned_envelope_native _ _ _ _ _ Hh) as [Hn Hw].
  destruct (native_round_trip env (Some 2%nat) Hn Hw) as (text & Et & El).
  destruct (success_path _ _ _ _ _ _ _ _ _ Hh Hs)
    as (dumped & im & tp & body & _ & Him & Htp & _ & _ & Hj & Hw').
  injection Him as <-. injection Htp as <-.
  eexists env, text, w', _.
  split.
  { unfold run, main. rewrite Hh.
    unfold print. rewrite Hout, Et, Hout. cbn [p_world p_stdout].
    now rewrite <- !app_assoc. }
  split; [exact El|]. split; [exact Hs|].
  split; [now rewrite Hw'|].
  split; [exact Hj|]. rewrite json_image_response_data.
  repeat split; reflexivity.
Qed.

End OutputFacts.

(** ** [get_python_version] *)

Lemma of_to_uint n : N.of_uint (N.to_uint n) = n.
Proof. apply DecimalN.Unsigned.of_to. Qed.

(** X16: the version string determines the version: reading
    [major.minor.micro] back gives the three numbers of
    [sys.version_info]. *)
Theorem X16_version_round_trip v :
  parse_version (get_python_version v) = Some v.
Proof.
  destruct v as [[major minor] micro].
  unfold get_python_version, parse_version, nat_repr.
  change (u ".") with [46].
  rewrite (take_digits_uint (N.to_uint major)) by reflexivity.
  cbn [app expect]. change (46 =? 46) with true. cbv iota. cbn [obind].
  rewrite (take_digits_uint (N.to_uint minor)) by reflexivity.
  cbn [app expect]. change (46 =? 46) with true. cbv iota. cbn [obind].
  rewrite <- (app_nil_r (uint_chars (N.to_uint micro))).
  rewrite (take_digits_uint (N.to_uint micro)) by reflexivity.
  now rewrite !of_to_uint.
Qed.

(** ** The further properties at sample invocations *)

Lemma quiet_sink_info : forall r, is_info r = true -> quiet_sink r = None.
Proof. intros r _. reflexivity. Qed.

(** X1 at the event of the [__main__] block (status 200) and at the same
    event with a test double as context (no status 200). *)
Lemma X1_success_iff_witness :
  within_limits test_event = true
  /\ within_limits (request_id_of PNone) = true
  /\ within_limits (request_id_of mock_context) = true
  /\ (forall r, is_info r = true -> quiet_sink r = None)
  /\ (exists env w',
         sample_handler test_event PNone world0 = (Ok env, w')
         /\ status_code env = Some (PInt 200))
  /\ ~ (exists env w',
           sample_handler test_event mock_context world0 = (Ok env, w')
           /\ status_code env = Some (PInt 200)).
Proof.
  split; [reflexivity|]. split; [reflexivity|]. split; [reflexivity|].
  split; [exact quiet_sink_info|]. split.
  - apply (proj2 (X1_success_iff sample_version sample_clock quiet_sink
                    sample_repr test_event PNone world0 eq_refl eq_refl
                    quiet_sink_info)).
    repeat split; reflexivity.
  - intros H.
    apply (proj1 (X1_success_iff sample_version sample_clock quiet_sink
                    sample_repr test_event mock_context world0
                    eq_refl eq_refl quiet_sink_info)) in H.
    destruct H as (_ & _ & H). vm_compute in H. discriminate.
Defined.

(** X2 at the event [None]. *)
Lemma X2_event_without_get_witness :
  is_dict PNone = false
  /\ json_serializable PNone = true
  /\ within_limits PNone = true
  /\ exists env,
      fst (sample_handler PNone PNone world0) = Ok env
      /\ status_code env = Some (PInt 500)
      /\ w_ticks (snd (sample_handler PNone PNone world0)) = 2%nat
      /\ exists body,
          body_json env = Some body
          /\ item body (u "message")
             = Some (PStr (u "'NoneType' object has no attribute 'get'")).
Proof.
  split; [reflexivity|]. split; [reflexivity|]. split; [reflexivity|].
  destruct (X2_event_without_get sample_version sample_clock quiet_sink
              sample_repr PNone PNone world0 eq_refl eq_refl eq_refl
              quiet_sink_info eq_refl)
    as (dumped & env & w' & infos & _ & Hh & Ht & _ & _ & Hs & Hj & Hm).
  exists env. unfold sample_handler. rewrite Hh.
  split; [reflexivity|]. split; [exact Hs|]. split; [exact Ht|].
  eexists. split; [exact Hj|]. vm_compute. reflexivity.
Defined.

(** X3 at an event holding bytes. *)
Lemma X3_unserialisable_event_witness :
  json_serializable bytes_event = false
  /\ within_limits bytes_event = true
  /\ exists e env,
      exn_cls e = TypeError
      /\ fst (sample_handler bytes_event PNone world0) = Ok env
      /\ status_code env = Some (PInt 500)
      /\ w_ticks (snd (sample_handler bytes_event PNone world0)) = 1%nat.
Proof.
  split; [reflexivity|]. split; [reflexivity|].
  destruct (X3_unserialisable_event sample_version sample_clock quiet_sink
              sample_repr bytes_event PNone world0 eq_refl eq_refl eq_refl
              (fun e => eq_refl))
    as (e & env & w' & infos & He & _ & Hh & Ht & _ & _ & Hs & _).
  exists e, env. unfold sample_handler. rewrite Hh.
  repeat split; try assumption; reflexivity.
Defined.

(** X4 at the event of the [__main__] block with a test double as
    context. *)
Lemma X4_unserialisable_request_id_witness :
  is_dict test_event = true
  /\ json_serializable test_event = true
  /\ json_serializable (request_id_of mock_context) = false
  /\ within_limits test_event = true
  /\ within_limits (request_id_of mock_context) = true
  /\ exists e env,
      exn_cls e = TypeError
      /\ json_dumps None (request_id_of mock_context) = Raise e
      /\ fst (sample_handler test_event mock_context world0) = Ok env
      /\ status_code env = Some (PInt 500)
      /\ w_ticks (snd (sample_handler test_event mock_context world0))
         = 2%nat.
Proof.
  split; [reflexivity|]. split; [reflexivity|]. split; [reflexivity|].
  split; [reflexivity|]. split; [reflexivity|].
  destruct (X4_unserialisable_request_id sample_version sample_clock
              quiet_sink sample_repr test_event mock_context world0
              eq_refl eq_refl eq_refl eq_refl eq_refl
              quiet_sink_info (fun e => eq_refl))
    as (dumped & e & env & w' & infos & _ & He & Hr & Hh & Ht & _ & _
        & Hs & _).
  exists e, env. unfold sample_handler. rewrite Hh.
  repeat split; try assumption; reflexivity.
Defined.

(** X5 at an event holding bytes. *)
Lemma X5_error_is_logged_witness :
  let out := sample_handler bytes_event PNone world0 in
  status_code (returned out) = Some (PInt 500)
  /\ exists e infos,
      w_log (snd out) = infos ++ [error_record e]
      /\ forallb is_info infos = true
      /\ exists body,
          body_json (returned out) = Some body
          /\ item body (u "message") = Some (PStr (py_str_exn e)).
Proof.
  cbv zeta.
  assert (Hs : status_code (returned (sample_handler bytes_event PNone world0))
               = Some (PInt 500)) by (vm_compute; reflexivity).
  split; [exact Hs|].
  destruct (X5_error_is_logged sample_version sample_clock quiet_sink
              sample_repr bytes_event PNone world0
              (returned (sample_handler bytes_event PNone world0))
              (snd (sample_handler bytes_event PNone world0)))
    as (e & infos & ts & Hlog & Hi & _ & Hj & Hm);
    [vm_compute; reflexivity | exact Hs |].
  exists e, infos. split; [exact Hlog|]. split; [exact Hi|].
  eexists. split; [exact Hj | exact Hm].
Defined.


(** X7 at the event of the [__main__] block and at the empty event. *)
Lemma X7_test_param_witness :
  (exists body,
      body_json (returned (sample_handler test_event PNone world0)) = Some body
      /\ item body (u "test_param") = Some (PStr (u "toukon")))
  /\ (exists body,
         body_json (returned (sample_handler (PDict []) PNone world0))
         = Some body
         /\ item body (u "test_param") = Some (PStr (u "default"))).
Proof.
  split.
  - destruct (X7_test_param sample_version sample_clock quiet_sink
                sample_repr test_event PNone world0
                (returned (sample_handler test_event PNone world0))
                (snd (sample_handler test_event PNone world0)))
      as (body & Hj & _ & _ & Ht);
      [vm_compute; reflexivity | vm_compute; reflexivity |].
    exists body. split; [exact Hj|]. apply Ht. reflexivity.
  - destruct (X7_test_param sample_version sample_clock quiet_sink
                sample_repr (PDict []) PNone world0
                (returned (sample_handler (PDict []) PNone world0))
                (snd (sample_handler (PDict []) PNone world0)))
      as (body & Hj & _ & Hd & _);
      [vm_compute; reflexivity | vm_compute; reflexivity |].
    exists body. split; [exact Hj|]. apply Hd. reflexivity.
Defined.

(** X8 at an event holding bytes, with a log that rejects ERROR
    records. *)
Lemma X8_only_logging_errors_escape_witness :
  exists e infos,
    fst (fragile_handler bytes_event PNone world0)
    = Raise (mkExn OSError (u "log stream closed"))
    /\ failing_error_sink (error_record e)
       = Some (mkExn OSError (u "log stream closed"))
    /\ w_log (snd (fragile_handler bytes_event PNone world0)) = infos
    /\ forallb is_info infos = true.
Proof.
  destruct (X8_only_logging_errors_escape sample_version sample_clock
              failing_error_sink sample_repr bytes_event PNone world0
              (mkExn OSError (u "log stream closed"))
              (snd (fragile_handler bytes_event PNone world0)))
    as (e & infos & _ & He & Hlog & Hi); [vm_compute; reflexivity|].
  exists e, infos. split; [vm_compute; reflexivity|].
  split; [exact He|]. split; [exact Hlog | exact Hi].
Defined.

(** X10 at the event of the [__main__] block, one-line layout. *)
Lemma X10_envelope_is_json_witness :
  let env := returned (sample_handler test_event PNone world0) in
  exists text, json_dumps None env = Ok text /\ json_loads text = Some env.
Proof.
  cbv zeta.
  destruct (X10_envelope_is_json sample_version sample_clock quiet_sink
              sample_repr test_event PNone world0
              (returned (sample_handler test_event PNone world0))
              (snd (sample_handler test_event PNone world0)) None)
    as (_ & _ & H); [vm_compute; reflexivity | exact H].
Defined.

(** X11 at an event holding a tuple. *)
Lemma X11_body_is_json_witness :
  json_native tuple_event = false
  /\ exists body,
      body_json (returned (sample_handler tuple_event PNone world0))
      = Some body
      /\ json_native body = true
      /\ well_formed body = true.
Proof.
  split; [reflexivity|].
  destruct (X11_body_is_json sample_version sample_clock quiet_sink
              sample_repr tuple_event PNone world0
              (returned (sample_handler tuple_event PNone world0))
              (snd (sample_handler tuple_event PNone world0)))
    as (body & Hj & Hn & Hw & _); [vm_compute; reflexivity|].
  exists body. auto.
Defined.

(** X12 at the event of the [__main__] block. *)
Lemma X12_body_text_witness :
  forallb unescaped (u "Python闘魂テスト from ローカル") = true
  /\ exists rest,
      item (returned (sample_handler test_event PNone world0)) (u "body")
      = Some (PStr ([123; 10; 32; 32; 34] ++ u "message" ++ [34; 58; 32; 34]
                    ++ message_prefix ++ u "Python闘魂テスト from ローカル"
                    ++ [34; 44; 10; 32; 32] ++ rest)).
Proof.
  assert (Hu : forallb unescaped (u "Python闘魂テスト from ローカル") = true)
    by (vm_compute; reflexivity).
  split; [exact Hu|].
  apply (X12_body_text sample_version sample_clock quiet_sink sample_repr
           test_event PNone world0 _
           (snd (sample_handler test_event PNone world0)));
    [vm_compute; reflexivity | vm_compute; reflexivity
     | vm_compute; reflexivity | exact Hu].
Defined.

(** X13 at an event holding a tuple: the echo holds a list, and
    replaying it returns that echo. *)
Lemma X13_echo_replay_witness :
  within_limits tuple_event = true
  /\ within_limits (request_id_of PNone) = true
  /\ exists echoed env2 w2' body2,
    echoed <> tuple_event
    /\ sample_handler echoed PNone later_world = (Ok env2, w2')
    /\ status_code env2 = Some (PInt 200)
    /\ body_json env2 = Some body2
    /\ item body2 (u "input_event") = Some echoed.
Proof.
  split; [reflexivity|]. split; [reflexivity|].
  destruct (X13_echo_replay sample_version sample_clock quiet_sink
              sample_repr tuple_event PNone world0
              (returned (sample_handler tuple_event PNone world0))
              (snd (sample_handler tuple_event PNone world0))
              PNone later_world quiet_sink_info eq_refl)
    as (body & echoed & env2 & w2' & body2 & Hj & Hi & Hh2 & Hs2 & Hj2 & Hi2);
    [vm_compute; reflexivity | vm_compute; reflexivity | reflexivity
     | reflexivity |].
  exists echoed, env2, w2', body2.
  split; [|auto].
  intros ->. vm_compute in Hj. injection Hj as <-.
  vm_compute in Hi. discriminate.
Defined.

Lemma quiet_stdout_accepts : forall s, quiet_stdout s = None.
Proof. intros s. reflexivity. Qed.

(** X14 with a log and a standard output that accept everything. *)
Lemma X14_main_outcome_witness :
  exists env w' text,
    sample_handler test_event PNone world0 = (Ok env, w')
    /\ json_loads text = Some env
    /\ sample_main process0
       = (Ok tt, mkProcess w' (u "🔥 テスト結果:" ++ [10] ++ text ++ [10])).
Proof.
  destruct (X14_main_outcome sample_version sample_clock quiet_sink
              sample_repr quiet_stdout process0 quiet_stdout_accepts)
    as [_ H].
  destruct (H (returned (sample_handler test_event PNone world0))
              (snd (sample_handler test_event PNone world0)))
    as (text & _ & Hl & Hm); [vm_compute; reflexivity|].
  eexists _, _, text. split; [vm_compute; reflexivity|].
  split; [exact Hl | exact Hm].
Defined.

(** X15 with a log and a standard output that accept everything. *)
Lemma X15_main_local_witness :
  exists env text w' body,
    sample_main process0
    = (Ok tt, mkProcess w' (u "🔥 テスト結果:" ++ [10] ++ text ++ [10]))
    /\ json_loads text = Some env
    /\ status_code env = Some (PInt 200)
    /\ body_json env = Some body
    /\ item body (u "request_id") = Some (PStr (u "local"))
    /\ item body (u "test_param") = Some (PStr (u "toukon")).
Proof.
  destruct (X15_main_local sample_version sample_clock quiet_sink
              sample_repr quiet_stdout process0 quiet_sink_info
              quiet_stdout_accepts)
    as (env & text & w' & body & Hm & Hl & Hs & _ & Hj & Hr & Ht & _).
  exists env, text, w', body. auto 10.
Defined.
